(** * Rust_Watch_Project: the image-to-asset scripts

    A shallow embedding of the three Python scripts of the repository

    - [466x466_original_images/make_spans.py]  (module [MakeSpans]),
    - [Watch_rs/raw_images/image_converter.py] (module [ImageConverter]),
    - [src/assets/pack_assets.py]              (module [PackAssets]),

    followed by the properties of the encoders and of the compression
    stage.  Python integers are [Z]; image coordinates and lengths are
    [nat]; a byte string is a [list Z] whose elements are in [0..255];
    an exception is an explicit error result. *)

From Stdlib Require Import ZArith List Lia Bool String Ascii Sorted.
From stdpp Require Import gmap strings list fin_maps sorting.
Import ListNotations.

Local Open Scope Z_scope.

(** ** Results of fallible computations *)

(** [struct.pack] raises [struct.error] on a value that does not fit its
    format; the two [while] loops of the run scanner are modelled with
    fuel, and [OutOfFuel] is the (unreachable) result of running out. *)
Inductive result (A : Type) : Type :=
| Ok (a : A)
| StructError
| OutOfFuel.
Arguments Ok {A} a.
Arguments StructError {A}.
Arguments OutOfFuel {A}.

#[global] Instance result_ret : MRet result := fun A a => Ok a.
#[global] Instance result_bind : MBind result := fun A B f m =>
  match m with
  | Ok a => f a
  | StructError => StructError
  | OutOfFuel => OutOfFuel
  end.

(** [for x in xs: s = body(s, x)] with exceptions propagating. *)
Fixpoint for_in {M : Type -> Type} `{MRet M, MBind M} {S X : Type}
    (xs : list X) (body : S -> X -> M S) (s : S) : M S :=
  match xs with
  | [] => mret s
  | x :: xs' => s' ← body s x; for_in xs' body s'
  end.

(** [range(a, a + n)] *)
Definition range (a n : nat) : list nat := seq a n.

(** ** The [struct] functions the scripts use *)
Module Struct.

Definition fits_H (v : Z) : bool := (0 <=? v) && (v <=? 65535).

(** [struct.pack(">H", v)] *)
Definition pack_H (v : Z) : result (list Z) :=
  if fits_H v then Ok [Z.shiftr v 8; Z.land v 255] else StructError.

(** [struct.pack(">HH", a, b)] *)
Definition pack_HH (a b : Z) : result (list Z) :=
  x ← pack_H a; y ← pack_H b; mret (x ++ y).

(** [struct.pack(">HHH", a, b, c)] *)
Definition pack_HHH (a b c : Z) : result (list Z) :=
  x ← pack_H a; y ← pack_H b; z ← pack_H c; mret (x ++ y ++ z).

(** [struct.unpack(">H", bs)[0]] *)
Definition unpack_H (bs : list Z) : result Z :=
  match bs with
  | [hi; lo] => Ok (Z.lor (Z.shiftl hi 8) lo)
  | _ => StructError
  end.

End Struct.

(** ** Images as Pillow hands them to the scripts *)

Definition RGB : Type := Z * Z * Z.
Definition RGBA : Type := Z * Z * Z * Z.

(** [img.size] is [(w, h)]; [img.load()] gives the pixel at [[x, y]]. *)
Record Image (P : Type) : Type := mkImage {
  size : nat * nat;
  load : nat -> nat -> P
}.
Arguments mkImage {P} size load.
Arguments size {P} i.
Arguments load {P} i x y.

Definition chan (c : Z) : Prop := 0 <= c <= 255.

Definition rgb_ok (p : RGB) : Prop :=
  let '(r, g, b) := p in chan r /\ chan g /\ chan b.

Definition rgba_ok (p : RGBA) : Prop :=
  let '(r, g, b, a) := p in chan r /\ chan g /\ chan b /\ chan a.

(** Every pixel inside the image has 8-bit channels. *)
Definition image_ok {P : Type} (ok : P -> Prop) (img : Image P) : Prop :=
  forall x y, (x < fst (size img))%nat -> (y < snd (size img))%nat ->
    ok (load img x y).

(** [img.convert("RGB")] on an RGBA image drops the alpha channel. *)
Definition convert_RGB (img : Image RGBA) : Image RGB :=
  mkImage (size img) (fun x y => let '(r, g, b, _) := load img x y in (r, g, b)).

(** ** make_spans.py *)
Module MakeSpans.
Import Struct.

Definition LIME_KEY : RGB := (0x8B, 0xE3, 0x08).

Definition rgb888_to_rgb565_be (r g b : Z) : result (list Z) :=
  pack_H (Z.lor (Z.lor (Z.shiftl (Z.land r 0xF8) 8)
                       (Z.shiftl (Z.land g 0xFC) 3))
                (Z.shiftr b 3)).

Definition pick_key_color {P : Type} (_img : Image P) : result (list Z) * RGB :=
  let '(r, g, b) := LIME_KEY in (rgb888_to_rgb565_be r g b, LIME_KEY).

Definition rgb_eqb (p q : RGB) : bool :=
  let '(r, g, b) := p in
  let '(r', g', b') := q in
  (r =? r') && (g =? g') && (b =? b').

(** The test of lines 69 and 75: [(r,g,b) == key_rgb or a == 0]. *)
Definition is_transparent (key_rgb : RGB) (p : RGBA) : bool :=
  let '(r, g, b, a) := p in
  rgb_eqb (r, g, b) key_rgb || (a =? 0).

(** Lines 55-59: the dense buffer [full_raw]. *)
Definition full_frame (img : Image RGBA) : result (list Z) :=
  let '(w, h) := size img in
  let pixels := load img in
  for_in (range 0 h) (fun full_raw y =>
    for_in (range 0 w) (fun full_raw x =>
      let '(r, g, b, a) := pixels x y in
      bs ← rgb888_to_rgb565_be r g b;
      mret (full_raw ++ bs)) full_raw) [].

Section Row.
Variable pixels : nat -> nat -> RGBA.
Variable key_rgb : RGB.
Variable w : nat.
Variable y : nat.

(** Lines 73-77: the inner [while x < w], leaving at the first
    transparent pixel or at the end of the row; the result is the
    new value of [x]. *)
Fixpoint run_end (fuel : nat) (x : nat) : result nat :=
  match fuel with
  | O => OutOfFuel
  | S fuel' =>
      if (x <? w)%nat then
        if is_transparent key_rgb (pixels x y) then Ok x
        else run_end fuel' (x + 1)%nat
      else Ok x
  end.

(** Lines 67-78: the outer [while x < w] with its list [row_runs]. *)
Fixpoint scan_row (fuel : nat) (x : nat) (row_runs : list (nat * nat))
    : result (list (nat * nat)) :=
  match fuel with
  | O => OutOfFuel
  | S fuel' =>
      if (x <? w)%nat then
        if is_transparent key_rgb (pixels x y) then
          scan_row fuel' (x + 1)%nat row_runs
        else
          let start := x in
          x' ← run_end (S (w - x)) x;
          scan_row fuel' x' (row_runs ++ [(start, (x' - start)%nat)])
      else Ok row_runs
  end.

(** Lines 65-78 for one row. *)
Definition row_runs_of : result (list (nat * nat)) :=
  scan_row (S w) 0%nat [].

(** Lines 79-85 for one row: the run count, then each run's header
    and pixels, added to [rle]; [run_pixels_total] grows by the
    length of each run. *)
Definition emit_row (row_runs : list (nat * nat)) (st : list Z * nat)
    : result (list Z * nat) :=
  let '(rle, run_pixels_total) := st in
  cnt ← pack_H (Z.of_nat (length row_runs));
  for_in row_runs (fun st r =>
    let '(rle, run_pixels_total) := st in
    let '(sx, ln) := r in
    hdr ← pack_HH (Z.of_nat sx) (Z.of_nat ln);
    rle ← for_in (range sx ln) (fun rle px =>
             let '(r, g, b, a) := pixels px y in
             bs ← rgb888_to_rgb565_be r g b;
             mret (rle ++ bs)) (rle ++ hdr);
    mret (rle, (run_pixels_total + ln)%nat)) (rle ++ cnt, run_pixels_total).

End Row.

(** Lines 51-52 and 62-85: the sprite buffer [rle] and
    [run_pixels_total]. *)
Definition sprite_rle (img : Image RGBA) : result (list Z * nat) :=
  let '(w, h) := size img in
  let '(key565_be, key_rgb) := pick_key_color img in
  key565_be ← key565_be;
  key565 ← unpack_H key565_be;
  let pixels := load img in
  hdr ← pack_HHH (Z.of_nat w) (Z.of_nat h) key565;
  for_in (range 0 h) (fun st y =>
    row_runs ← row_runs_of pixels key_rgb w y;
    emit_row pixels y row_runs st) (hdr, 0%nat).

End MakeSpans.

(** ** image_converter.py *)
Module ImageConverter.
Import Struct.

(** The RGB565 value of line 23. *)
Definition rgb565 (r g b : Z) : Z :=
  Z.lor (Z.lor (Z.shiftl (Z.shiftr r 3) 11) (Z.shiftl (Z.shiftr g 2) 5))
        (Z.shiftr b 3).

(** [out[i:j] = bs] on a bytearray, for [0 <= i <= j]. *)
Definition slice_assign (out : list Z) (i j : nat) (bs : list Z) : list Z :=
  firstn i out ++ bs ++ skipn j out.

(** The image modes the callers pass. *)
Inductive AnyImage : Type :=
| ModeRGB (img : Image RGB)
| ModeRGBA (img : Image RGBA).

Definition to_rgb565_be_bytes (img : AnyImage) : result (list Z) :=
  let img := match img with
             | ModeRGB img => img
             | ModeRGBA img => convert_RGB img
             end in
  let '(w, h) := size img in
  let px := load img in
  let out := repeat 0 (w * h * 2)%nat in
  let i := 0%nat in
  st ← for_in (range 0 h) (fun st y =>
          for_in (range 0 w) (fun st x =>
            let '(out, i) := st in
            let '(r, g, b) := px x y in
            let v := rgb565 r g b in
            bs ← pack_H v;
            mret (slice_assign out i (i + 2) bs, (i + 2)%nat)) st) (out, i);
  mret (fst st).

End ImageConverter.

(** ** pack_assets.py *)
Module PackAssets.

(** *** The file-name pattern *)

(** An ASCII decimal digit, 0..9. *)
Definition is_digit (c : ascii) : bool :=
  let n := nat_of_ascii c in (48 <=? n)%nat && (n <=? 57)%nat.

(** Lower-casing of an ASCII letter, for [re.IGNORECASE]. *)
Definition lower (c : ascii) : ascii :=
  let n := nat_of_ascii c in
  if (65 <=? n)%nat && (n <=? 90)%nat then ascii_of_nat (n + 32) else c.

Definition ascii_eqb_nocase (c d : ascii) : bool :=
  Ascii.eqb (lower c) (lower d).

(** [strip_nocase pat s] removes the prefix [pat] from [s], comparing
    letters without case. *)
Fixpoint strip_nocase (pat s : list ascii) : option (list ascii) :=
  match pat, s with
  | [], _ => Some s
  | p :: pat', c :: s' =>
      if ascii_eqb_nocase p c then strip_nocase pat' s' else None
  | _ :: _, [] => None
  end.

(** A byte below 128 is a character of its own in the encoding of a name. *)
Definition is_ascii (c : ascii) : bool := (nat_of_ascii c <? 128)%nat.

(** The value of the digit [c] among 0..9. *)
Definition digit_value (c : ascii) : Z := Z.of_nat (nat_of_ascii c) - 48.

(** [int(ds)] for a string of decimal digits, given by their values. *)
Definition int_of_digits (ds : list Z) : Z :=
  fold_left (fun n d => 10 * n + d) ds 0.

Definition suffix_rev : list ascii :=
  rev (list_ascii_of_string "_rgb565_be.raw").

(** [p.name]: the last component of a path. *)
Fixpoint name_rev (r : list ascii) : list ascii :=
  match r with
  | c :: r' => if Ascii.eqb c "/"%char then [] else c :: name_rev r'
  | [] => []
  end.

Definition path_name (p : string) : string :=
  string_of_list_ascii (rev (name_rev (rev (list_ascii_of_string p)))).

Section Pattern.
(** Python's Unicode database, which is not part of the repository, is a
    parameter.  [RAW_RE] is a [str] pattern, in which [\d] matches every
    decimal digit (category Nd), not the ASCII ones only, and [int]
    reads them all.  A name is held as the bytes of its encoding.
    [unicode_span r] is asked only when [r], a part of the name in
    reverse, begins with a byte that is not ASCII: it gives the values
    of the decimal digits, the ASCII ones among them, that the text of
    [r] begins with, in the order of [r], and the bytes of [r] that
    come after them. *)
Variable unicode_span : list ascii -> list Z * list ascii.

(** The longest run of digits the reversed name begins with, as values,
    and what follows it. *)
Fixpoint span_digits (s : list ascii) : list Z * list ascii :=
  match s with
  | c :: s' =>
      if is_digit c then
        let '(ds, rest) := span_digits s' in (digit_value c :: ds, rest)
      else if is_ascii c then ([], s)
      else unicode_span s
  | [] => ([], [])
  end.

(** A match of [_(\d+)x(\d+)_rgb565_be\.raw] ending where the reversed
    text [r] begins; the two groups are the digit runs on either side
    of the [x], which the pattern delimits by [_], [x] and [_]. *)
Definition match_ending (r : list ascii) : option (Z * Z) :=
  match strip_nocase suffix_rev r with
  | None => None
  | Some r1 =>
      let '(g2, r2) := span_digits r1 in
      match g2, r2 with
      | _ :: _, c :: r3 =>
          if ascii_eqb_nocase c "x"%char then
            let '(g1, r4) := span_digits r3 in
            match g1, r4 with
            | _ :: _, u :: _ =>
                if Ascii.eqb u "_"%char then
                  Some (int_of_digits (rev g1), int_of_digits (rev g2))
                else None
            | _, _ => None
            end
          else None
      | _, _ => None
      end
  end.

(** [RAW_RE.search(name)]: [$] matches at the end of the name, and
    also just before a newline that ends the name. *)
Definition RAW_RE_search (name : string) : option (Z * Z) :=
  let r := rev (list_ascii_of_string name) in
  match match_ending r with
  | Some wh => Some wh
  | None =>
      match r with
      | c :: r' => if Ascii.eqb c "010"%char then match_ending r' else None
      | [] => None
      end
  end.

Definition size_from_name (p : string) : option (Z * Z) :=
  RAW_RE_search (path_name p).

End Pattern.

(** *** The world of the script: files and what it prints and touches *)

Inductive Msg : Type :=
| MsgSkipName (name : string)
| MsgSizeError (name : string) (len expected w h : Z)
| MsgSkipExists (out_name : string)
| MsgOk (name out_name : string) (len comp_len : nat)
| MsgBadLevel
| MsgNoFiles
| MsgFail (name : string)
| MsgDone (ok total : nat).

Inductive Event : Type :=
| EPrint (m : Msg)
| EGlob (recursive : bool)
| ERead (p : string)
| EExists (p : string)
| EWrite (p : string).

Record World : Type := mkWorld {
  fs : gmap string (list Z);
  log : list Event
}.

Inductive exn : Type :=
| OSError (p : string)
| ZlibError.

(** How a computation ends: with a value, with an exception that
    [except Exception] catches, or with [sys.exit(code)]. *)
Inductive outcome (A : Type) : Type :=
| Val (a : A)
| Raise (e : exn)
| Exit (code : Z).
Arguments Val {A} a.
Arguments Raise {A} e.
Arguments Exit {A} code.

Definition M (A : Type) : Type := World -> outcome A * World.

#[global] Instance M_ret : MRet M := fun A a s => (Val a, s).
#[global] Instance M_bind : MBind M := fun A B f m s =>
  match m s with
  | (Val a, s') => f a s'
  | (Raise e, s') => (Raise e, s')
  | (Exit c, s') => (Exit c, s')
  end.

Definition emit (e : Event) : M unit :=
  fun s => (Val tt, mkWorld (fs s) (log s ++ [e])).

Definition print (m : Msg) : M unit := emit (EPrint m).

Definition sys_exit {A : Type} (code : Z) : M A := fun s => (Exit code, s).

Definition raise {A : Type} (e : exn) : M A := fun s => (Raise e, s).

(** [try: body  except Exception: handler] *)
Definition try_except {A : Type} (body : M A) (handler : exn -> M A) : M A :=
  fun s =>
    match body s with
    | (Raise e, s') => handler e s'
    | r => r
    end.

Definition get_fs : M (gmap string (list Z)) := fun s => (Val (fs s), s).

Definition put_fs (m : gmap string (list Z)) : M unit :=
  fun s => (Val tt, mkWorld m (log s)).

(** [path.read_bytes()] *)
Definition read_bytes (p : string) : M (list Z) :=
  emit (ERead p);;
  m ← get_fs;
  match m !! p with
  | Some data => mret data
  | None => raise (OSError p)
  end.

(** [path.exists()] *)
Definition path_exists (p : string) : M bool :=
  emit (EExists p);;
  m ← get_fs;
  mret (bool_decide (is_Some (m !! p))).

(** [path.write_bytes(data)] *)
Definition write_bytes (p : string) (data : list Z) : M unit :=
  emit (EWrite p);;
  m ← get_fs;
  put_fs (<[p := data]> m).

Record Args : Type := mkArgs {
  level : Z;
  force : bool;
  overwrite : bool;
  recursive : bool
}.

Section Stage.
(** The decimal digits that are not ASCII, as in [Section Pattern]. *)
Variable unicode_span : list ascii -> list Z * list ascii.
(** [zlib.compress(data, level)] for the levels zlib accepts. *)
Variable zlib_compress : list Z -> Z -> list Z.
(** [sorted(base.glob("*.raw"))], or [rglob] when recursive. *)
Variable discover : bool -> gmap string (list Z) -> list string.

Definition zlib_level_ok (level : Z) : bool := (-1 <=? level) && (level <=? 9).

(** [zlib.compress] raises [zlib.error] outside the levels -1..9; a name
    that matches the pattern has a suffix, so that
    [path.with_suffix(path.suffix + ".zlib")] appends [.zlib]. *)
Definition compress_one (path : string) (level : Z) (force overwrite : bool)
    : M bool :=
  match size_from_name unicode_span path with
  | None =>
      print (MsgSkipName (path_name path));;
      mret false
  | Some (w, h) =>
      let expected := w * h * 2 in
      data ← read_bytes path;
      if negb (Z.of_nat (length data) =? expected) && negb force then
        print (MsgSizeError (path_name path) (Z.of_nat (length data)) expected w h);;
        mret false
      else
        let out := (path +:+ ".zlib")%string in
        ex ← path_exists out;
        if ex && negb overwrite then
          print (MsgSkipExists (path_name out));;
          mret true
        else
          if zlib_level_ok level then
            let comp := zlib_compress data level in
            write_bytes out comp;;
            print (MsgOk (path_name path) (path_name out) (length data) (length comp));;
            mret true
          else raise ZlibError
  end.

Definition glob (recursive : bool) : M (list string) :=
  emit (EGlob recursive);;
  m ← get_fs;
  mret (discover recursive m).

(** Lines 64-68: the body of [for f in files]. *)
Definition loop_body (args : Args) (ok : nat) (f : string) : M nat :=
  try_except
    (b ← compress_one f (level args) (force args) (overwrite args);
     mret (if b : bool then (ok + 1)%nat else ok))
    (fun e => print (MsgFail (path_name f));; mret ok).

Definition main (args : Args) : M unit :=
  if (level args <? 0) || (level args >? 9) then
    print MsgBadLevel;;
    sys_exit 2
  else
    files ← glob (recursive args);
    match files with
    | [] =>
        print MsgNoFiles;;
        sys_exit 1
    | _ :: _ =>
        ok ← for_in files (loop_body args) 0%nat;
        print (MsgDone ok (length files));;
        sys_exit (if (ok =? length files)%nat then 0 else 1)
    end.

(** The exit status of the script started in world [s]. *)
Definition exit_status (args : Args) (s : World) : option Z :=
  match main args s with
  | (Exit c, _) => Some c
  | _ => None
  end.

End Stage.

End PackAssets.

(** ** The dense buffer in the words of the specification *)
Module Dense.

(** The two bytes of one pixel: its RGB565 value, high byte first. *)
Definition pixel_bytes (p : RGB) : list Z :=
  let '(r, g, b) := p in
  let v := ImageConverter.rgb565 r g b in
  [Z.shiftr v 8; Z.land v 255].

(** Row by row from the top, left to right within a row. *)
Definition dense (img : Image RGB) : list Z :=
  let '(w, h) := size img in
  flat_map (fun y => flat_map (fun x => pixel_bytes (load img x y)) (range 0 w))
           (range 0 h).

(** The bytearray of [to_rgb565_be_bytes] when [done] has been written
    and [n] zero bytes remain, with the write index [i]. *)
Definition fill (done : list Z) (n : nat) : list Z * nat :=
  (done ++ repeat 0 n, length done).

End Dense.

(** ** Runs of a row in the words of the specification *)
Module Runs.

(** Column [c] lies in the run [(start, length)]. *)
Definition covers (r : nat * nat) (c : nat) : Prop :=
  (fst r <= c < fst r + snd r)%nat.

(** The pixel of column [c] in row [y] is not transparent. *)
Definition opaque_at (pixels : nat -> nat -> RGBA) (key_rgb : RGB)
    (y c : nat) : Prop :=
  MakeSpans.is_transparent key_rgb (pixels c y) = false.

(** Starts increase strictly from one run to any later one. *)
Definition starts_before (r1 r2 : nat * nat) : Prop := (fst r1 < fst r2)%nat.

(** A later run begins after the end of an earlier one, with at least
    one column between them. *)
Definition apart (r1 r2 : nat * nat) : Prop :=
  (fst r1 + snd r1 < fst r2)%nat.

(** What holds of [row_runs] each time the outer loop of the scanner
    tests [x < w]: the runs so far lie left of [x], are apart, end at a
    transparent pixel when they end at [x], and cover the opaque
    columns left of [x]. *)
Record scan_inv (pixels : nat -> nat -> RGBA) (key_rgb : RGB) (w y x : nat)
    (runs : list (nat * nat)) : Prop := {
  inv_length : Forall (fun r => (1 <= snd r)%nat /\ (fst r + snd r <= x)%nat) runs;
  inv_apart : StronglySorted apart runs;
  inv_closed : forall r, In r runs -> (fst r + snd r)%nat = x -> (x < w)%nat ->
                 MakeSpans.is_transparent key_rgb (pixels x y) = true;
  inv_cover : forall c, (exists r, In r runs /\ covers r c)
                        <-> (c < x)%nat /\ opaque_at pixels key_rgb y c
}.

End Runs.

(** ** Concrete images *)
Module Examples.

(** The 2x2 image of the specification's scenario, row-major. *)
Definition scenario_2x2 : Image RGBA :=
  mkImage (2%nat, 2%nat)
    (fun x y => nth (y * 2 + x)
                  [(139, 227, 8, 255); (255, 0, 0, 255);
                   (139, 227, 8, 255); (0, 255, 0, 255)] (0, 0, 0, 0)).

(** An image of the given size painted with the key colour. *)
Definition all_key (w h : nat) : Image RGBA :=
  mkImage (w, h) (fun _ _ => (0x8B, 0xE3, 0x08, 255)).

(** One row, one column more than a 16-bit field can count. *)
Definition too_wide : Image RGBA := all_key (2 ^ 16) 1.

End Examples.

(** ** The batch in the words of the specification *)
Module Batch.
Import PackAssets.

Section Files.
Variable unicode_span : list ascii -> list Z * list ascii.
Variable zlib_compress : list Z -> Z -> list Z.
Variable args : Args.

(** Whether one file succeeded, that is whether [compress_one]
    returned [True] for it, and the world it leaves (an exception is
    reported by the batch and is not a success). *)
Definition file_result (f : string) (s : World) : bool * World :=
  match compress_one unicode_span zlib_compress f (level args) (force args) (overwrite args) s with
  | (Val b, s') => (b, s')
  | (Raise _, s') => (false, mkWorld (fs s') (log s' ++ [EPrint (MsgFail (path_name f))]))
  | (Exit _, s') => (false, s')
  end.

(** The successes of the files of a batch, in order. *)
Fixpoint batch_results (files : list string) (s : World) : list bool :=
  match files with
  | [] => []
  | f :: files' =>
      let '(b, s') := file_result f s in b :: batch_results files' s'
  end.

Definition every_file_succeeded (files : list string) (s : World) : bool :=
  forallb (fun b : bool => b) (batch_results files s).

(** The world after the files of a batch. *)
Fixpoint batch_world (files : list string) (s : World) : World :=
  match files with
  | [] => s
  | f :: files' => batch_world files' (snd (file_result f s))
  end.

End Files.

Fixpoint count_true (bs : list bool) : nat :=
  match bs with
  | [] => 0
  | b :: bs' => ((if b then 1 else 0) + count_true bs')%nat
  end.

(** The world in which the files are processed: discovery is logged. *)
Definition after_glob (args : Args) (s : World) : World :=
  mkWorld (fs s) (log s ++ [EGlob (recursive args)]).

(** No decimal digit outside ASCII: the names of the examples are
    ASCII, so that the digits of other scripts are never looked for. *)
Definition ascii_only (r : list ascii) : list Z * list ascii := ([], r).

(** No compression: the stored form stands for any compressor. *)
Definition stored (data : list Z) (_ : Z) : list Z := data.

Definition args9 (force overwrite : bool) : Args := mkArgs 9 force overwrite false.

(** A world with one 4x4 raw file that is one byte short. *)
Definition short_file : World :=
  mkWorld {[ "foo_4x4_rgb565_be.raw"%string := repeat 7 31 ]} [].

(** The same with a compressed output already in place. *)
Definition short_file_packed : World :=
  mkWorld (<[ "foo_4x4_rgb565_be.raw.zlib"%string := [1; 2; 3] ]> (fs short_file)) [].

(** A world whose only raw file has a name without dimensions. *)
Definition unnamed_file : World :=
  mkWorld {[ "notes.raw"%string := [1; 2] ]} [].

(** Discovery that finds exactly the given files. *)
Definition found (files : list string) (_ : bool) (_ : gmap string (list Z))
    : list string := files.

End Batch.

(** ** Decimal text of an integer, as [str(n)] and [f"{n}"] give it *)
Module Decimal.

(** The digits of [n >= 0], least significant first. *)
Fixpoint digits_rev (fuel : nat) (n : Z) : list ascii :=
  match fuel with
  | O => []
  | S fuel' =>
      let d := ascii_of_nat (48 + Z.to_nat (n mod 10)) in
      if n <? 10 then [d] else d :: digits_rev fuel' (n / 10)
  end.

(** A number below [2 ^ fuel] has at most [fuel] decimal digits. *)
Definition digits (n : Z) : list ascii :=
  rev (digits_rev (S (Z.to_nat (Z.log2 n))) n).

Definition str_int (n : Z) : string :=
  if n <? 0 then String "-"%char (string_of_list_ascii (digits (- n)))
  else string_of_list_ascii (digits n).

End Decimal.

(** ** image_converter.py, lines 57-63: the exported file *)
Module RawExport.
Import PackAssets.

(** Line 59: [f"{base}_{w}x{h}_rgb565_be.raw"]. *)
Definition out_path (base : string) (w h : Z) : string :=
  (base +:+ "_" +:+ Decimal.str_int w +:+ "x" +:+ Decimal.str_int h
   +:+ "_rgb565_be.raw")%string.

(** Lines 57-63 on the image [img2] that the resize to [(w, h)] returned:
    the raw bytes are written to [out_path]. *)
Definition export (base : string) (img2 : Image RGB) (m : gmap string (list Z))
    : result (gmap string (list Z)) :=
  let '(w, h) := size img2 in
  raw_bytes ← ImageConverter.to_rgb565_be_bytes (ImageConverter.ModeRGB img2);
  mret (<[out_path base (Z.of_nat w) (Z.of_nat h) := raw_bytes]> m).

End RawExport.

(** ** The sprite buffer in the words of its format *)
Module Layout.

(** A 16-bit field, big-endian. *)
Definition u16 (v : Z) : list Z := [Z.shiftr v 8; Z.land v 255].

(** The runs of a row given the transparency of its pixels from column
    [x] on, left to right; [start] is the first column of the run that is
    open at [x], if one is. *)
Definition close (start : option nat) (x : nat) : list (nat * nat) :=
  match start with
  | Some s => [(s, (x - s)%nat)]
  | None => []
  end.

Fixpoint spans (ts : list bool) (x : nat) (start : option nat)
    : list (nat * nat) :=
  match ts with
  | [] => close start x
  | true :: ts' => close start x ++ spans ts' (S x) None
  | false :: ts' =>
      spans ts' (S x) (Some (match start with Some s => s | None => x end))
  end.

(** Transparency of the pixels of row [y] from column [x] to the end. *)
Definition flags_from (pixels : nat -> nat -> RGBA) (key_rgb : RGB)
    (w y x : nat) : list bool :=
  map (fun c => MakeSpans.is_transparent key_rgb (pixels c y)) (seq x (w - x)).

Definition runs_of_row (img : Image RGBA) (y : nat) : list (nat * nat) :=
  spans (flags_from (load img) MakeSpans.LIME_KEY (fst (size img)) y 0) 0 None.

Definition rgb_of (p : RGBA) : RGB := let '(r, g, b, _) := p in (r, g, b).

(** One run: start, length, then its pixels. *)
Definition run_bytes (pixels : nat -> nat -> RGBA) (y : nat) (r : nat * nat)
    : list Z :=
  u16 (Z.of_nat (fst r)) ++ u16 (Z.of_nat (snd r))
  ++ flat_map (fun x => Dense.pixel_bytes (rgb_of (pixels x y)))
              (range (fst r) (snd r)).

(** One row: the run count, then the runs. *)
Definition row_bytes (pixels : nat -> nat -> RGBA) (y : nat)
    (runs : list (nat * nat)) : list Z :=
  u16 (Z.of_nat (length runs)) ++ flat_map (run_bytes pixels y) runs.

Definition sprite_bytes (img : Image RGBA) : list Z :=
  u16 (Z.of_nat (fst (size img))) ++ u16 (Z.of_nat (snd (size img))) ++ u16 0x8F01
  ++ flat_map (fun y => row_bytes (load img) y (runs_of_row img y))
              (range 0 (snd (size img))).

Definition sum_len (runs : list (nat * nat)) : nat :=
  fold_right (fun r n => (snd r + n)%nat) 0%nat runs.

Definition count_opaque (ts : list bool) : nat :=
  length (List.filter negb ts).

(** The number of pixels of the image that are not transparent. *)
Definition opaque_count (img : Image RGBA) : nat :=
  fold_right (fun y n =>
      (count_opaque (flags_from (load img) MakeSpans.LIME_KEY (fst (size img)) y 0) + n)%nat)
    0%nat (range 0 (snd (size img))).

(** The number of runs of the image. *)
Definition run_count (img : Image RGBA) : nat :=
  fold_right (fun y n => (length (runs_of_row img y) + n)%nat)
    0%nat (range 0 (snd (size img))).

Definition byte (v : Z) : Prop := 0 <= v <= 255.

(** The columns a list of runs paints, in the order it paints them. *)
Definition columns_of (runs : list (nat * nat)) : list nat :=
  flat_map (fun r => seq (fst r) (snd r)) runs.

(** The columns of the opaque pixels among [ts], the first being column
    [x]. *)
Fixpoint opaque_cols (ts : list bool) (x : nat) : list nat :=
  match ts with
  | [] => []
  | t :: ts' => (if t then [] else [x]) ++ opaque_cols ts' (S x)
  end.

Definition open_cols (start : option nat) (x : nat) : list nat :=
  match start with Some s => seq s (x - s) | None => [] end.

(** The columns of the run that is open at [x]. *)
Definition open_len (start : option nat) (x : nat) : nat :=
  match start with Some s => (x - s)%nat | None => 0%nat end.

(** An open run begins at or before the current column. *)
Definition open_ok (start : option nat) (x : nat) : Prop :=
  match start with Some s => (s <= x)%nat | None => True end.

End Layout.

(** ** Paths of compressed outputs *)
Module Outputs.

(** The path ends in [.zlib]. *)
Definition has_zlib_suffix (p : string) : bool :=
  match rev (list_ascii_of_string p) with
  | "b"%char :: "i"%char :: "l"%char :: "z"%char :: "."%char :: _ => true
  | _ => false
  end.

End Outputs.

(** ** More concrete inputs *)
Module Samples.

(** An image of one colour. *)
Definition solid (w h : nat) (p : RGBA) : Image RGBA := mkImage (w, h) (fun _ _ => p).

Definition red : RGBA := (255, 0, 0, 255).

(** A world with one well-sized 1x1 raw file and one stray file. *)
Definition one_pixel_file : PackAssets.World :=
  PackAssets.mkWorld
    (<[ "dot_1x1_rgb565_be.raw"%string := [0xF8; 0x00] ]>
       {[ "readme.txt"%string := [104; 105] ]}) [].

(** A 1x1 image of one red pixel, without alpha. *)
Definition red_dot : Image RGB := mkImage (1%nat, 1%nat) (fun _ _ => (255, 0, 0)).

End Samples.

(** * Properties *)

Section CodecFacts.
Import Struct MakeSpans ImageConverter.

(** A property checked on the 256 channel values holds of every channel. *)
Lemma chan_forall (P : Z -> bool) :
  forallb P (map Z.of_nat (seq 0 256)) = true ->
  forall c, chan c -> P c = true.
Proof.
  intros Hall c [Hlo Hhi].
  rewrite forallb_forall in Hall. apply Hall.
  apply in_map_iff. exists (Z.to_nat c). split; [lia|].
  apply in_seq. lia.
Qed.

Lemma mask_red (r : Z) :
  chan r -> Z.shiftl (Z.land r 0xF8) 8 = Z.shiftl (Z.shiftr r 3) 11.
Proof.
  intros Hr. apply Z.eqb_eq.
  apply (chan_forall (fun c => Z.shiftl (Z.land c 0xF8) 8 =? Z.shiftl (Z.shiftr c 3) 11));
    [vm_compute; reflexivity | exact Hr].
Qed.

Lemma mask_green (g : Z) :
  chan g -> Z.shiftl (Z.land g 0xFC) 3 = Z.shiftl (Z.shiftr g 2) 5.
Proof.
  intros Hg. apply Z.eqb_eq.
  apply (chan_forall (fun c => Z.shiftl (Z.land c 0xFC) 3 =? Z.shiftl (Z.shiftr c 2) 5));
    [vm_compute; reflexivity | exact Hg].
Qed.

(** Or-ing a value below [2^k] into a value shifted left by [k] adds it. *)
Lemma low_bits_above (b k n : Z) :
  0 <= b < 2 ^ k -> k <= n -> Z.testbit b n = false.
Proof.
  intros Hb Hn. destruct (Z.eq_dec b 0) as [-> | Hnz].
  - apply Z.bits_0.
  - apply Z.bits_above_log2; [lia|].
    assert (Z.log2 b < k) by (apply Z.log2_lt_pow2; lia). lia.
Qed.

Lemma land_shiftl_low (a b k : Z) :
  0 <= b < 2 ^ k -> Z.land (Z.shiftl a k) b = 0.
Proof.
  intros Hb. apply Z.bits_inj'. intros n Hn.
  rewrite Z.land_spec, Z.bits_0.
  destruct (Z.lt_ge_cases n k) as [Hlt | Hge].
  - rewrite Z.shiftl_spec_low by exact Hlt. reflexivity.
  - rewrite (low_bits_above b k n Hb Hge). apply andb_false_r.
Qed.

(** Or-ing a value below [2^k] into a value shifted left by [k] adds it. *)
Lemma lor_shiftl_low (a b k : Z) :
  0 <= k -> 0 <= b < 2 ^ k -> Z.lor (Z.shiftl a k) b = a * 2 ^ k + b.
Proof.
  intros Hk Hb.
  rewrite <- Z.shiftl_mul_pow2 by exact Hk.
  rewrite <- Z.lxor_lor by (apply land_shiftl_low; exact Hb).
  symmetry. apply Z.add_nocarry_lxor, land_shiftl_low, Hb.
Qed.

Lemma rgb565_sum (r g b : Z) :
  chan r -> chan g -> chan b ->
  rgb565 r g b = r / 8 * 2048 + g / 4 * 32 + b / 8.
Proof.
  unfold chan, rgb565. intros Hr Hg Hb.
  rewrite !Z.shiftr_div_pow2 by lia.
  change (2 ^ 3) with 8. change (2 ^ 2) with 4.
  assert (0 <= g / 4 < 2 ^ 6) by (change (2 ^ 6) with 64; Z.div_mod_to_equations; lia).
  assert (0 <= b / 8 < 2 ^ 5) by (change (2 ^ 5) with 32; Z.div_mod_to_equations; lia).
  replace (Z.shiftl (r / 8) 11) with (Z.shiftl (Z.shiftl (r / 8) 6) 5)
    by (rewrite Z.shiftl_shiftl by lia; reflexivity).
  rewrite <- Z.shiftl_lor.
  rewrite (lor_shiftl_low (r / 8) (g / 4) 6) by (assumption || lia).
  rewrite lor_shiftl_low by (assumption || lia).
  change (2 ^ 6) with 64. change (2 ^ 5) with 32. lia.
Qed.

Lemma mask_is_shift (r g b : Z) :
  chan r -> chan g ->
  Z.lor (Z.lor (Z.shiftl (Z.land r 0xF8) 8) (Z.shiftl (Z.land g 0xFC) 3))
        (Z.shiftr b 3) = rgb565 r g b.
Proof.
  intros Hr Hg. unfold rgb565. rewrite mask_red, mask_green by assumption.
  reflexivity.
Qed.

Lemma rgb565_range (r g b : Z) :
  chan r -> chan g -> chan b -> 0 <= rgb565 r g b <= 65535.
Proof.
  intros Hr Hg Hb. rewrite rgb565_sum by assumption. unfold chan in *.
  Z.div_mod_to_equations. lia.
Qed.

Lemma pack_H_fits (v : Z) :
  0 <= v <= 65535 -> pack_H v = Ok [Z.shiftr v 8; Z.land v 255].
Proof.
  intros Hv. unfold pack_H, fits_H.
  destruct (Z.leb_spec 0 v); [|lia]. destruct (Z.leb_spec v 65535); [|lia].
  reflexivity.
Qed.

Lemma rgb888_to_rgb565_be_ok (r g b : Z) :
  chan r -> chan g -> chan b ->
  rgb888_to_rgb565_be r g b
  = Ok [Z.shiftr (rgb565 r g b) 8; Z.land (rgb565 r g b) 255].
Proof.
  intros Hr Hg Hb. unfold rgb888_to_rgb565_be.
  rewrite mask_is_shift by assumption.
  apply pack_H_fits, rgb565_range; assumption.
Qed.
End CodecFacts.

(** C2. For every 8-bit triple (R, G, B) the pixel codec of make_spans.py
    returns exactly two bytes, the high byte then the low byte of the
    16-bit value [v] that holds R >> 3 in bits 15..11, G >> 2 in bits
    10..5 and B >> 3 in bits 4..0; the mask-based expression of
    make_spans.py and the shift-based expression of image_converter.py
    ([ImageConverter.rgb565], packed by [Struct.pack_H]) give the same
    bytes. *)
Theorem pixel_codec_rgb565_be (r g b : Z) :
  chan r -> chan g -> chan b ->
  let v := ImageConverter.rgb565 r g b in
  MakeSpans.rgb888_to_rgb565_be r g b = Ok [Z.shiftr v 8; Z.land v 255]
  /\ Struct.pack_H v = MakeSpans.rgb888_to_rgb565_be r g b
  /\ 0 <= v <= 65535
  /\ Z.shiftr v 11 = Z.shiftr r 3
  /\ Z.land (Z.shiftr v 5) 63 = Z.shiftr g 2
  /\ Z.land v 31 = Z.shiftr b 3
  /\ 0 <= Z.shiftr v 8 <= 255
  /\ 0 <= Z.land v 255 <= 255
  /\ v = 256 * Z.shiftr v 8 + Z.land v 255.
Proof.
  intros Hr Hg Hb v.
  pose proof (rgb565_range r g b Hr Hg Hb) as Hv.
  pose proof (rgb565_sum r g b Hr Hg Hb) as Hs.
  fold v in Hv, Hs.
  split; [apply rgb888_to_rgb565_be_ok; assumption|].
  split; [rewrite rgb888_to_rgb565_be_ok by assumption; apply pack_H_fits; exact Hv|].
  split; [exact Hv|].
  change 63 with (Z.ones 6). change 31 with (Z.ones 5). change 255 with (Z.ones 8).
  rewrite !Z.land_ones, !Z.shiftr_div_pow2 by lia.
  change (2 ^ 11) with 2048. change (2 ^ 5) with 32. change (2 ^ 6) with 64.
  change (2 ^ 8) with 256. change (2 ^ 3) with 8. change (2 ^ 2) with 4.
  change (Z.ones 8) with 255.
  unfold chan in *. rewrite Hs. clear Hs Hv v.
  repeat split; Z.div_mod_to_equations; lia.
Qed.

Lemma pixel_codec_rgb565_be_witness :
  MakeSpans.rgb888_to_rgb565_be 0x8B 0xE3 0x08 = Ok [0x8F; 0x01].
Proof.
  apply (pixel_codec_rgb565_be 0x8B 0xE3 0x08); unfold chan; lia.
Defined.

Section Loops.

(** A loop whose body appends [g x] to the accumulator appends them all. *)
Lemma for_in_append {X : Type} (xs : list X)
    (body : list Z -> X -> result (list Z)) (g : X -> list Z) :
  (forall acc x, In x xs -> body acc x = Ok (acc ++ g x)) ->
  forall acc, for_in xs body acc = Ok (acc ++ flat_map g xs).
Proof.
  induction xs as [|x xs IH]; intros Hbody acc; simpl.
  - rewrite app_nil_r. reflexivity.
  - rewrite Hbody by (left; reflexivity). simpl.
    rewrite IH by (intros; apply Hbody; right; assumption).
    rewrite app_assoc. reflexivity.
Qed.

Lemma flat_map_length_const {X : Type} (g : X -> list Z) (k : nat) (xs : list X) :
  (forall x, length (g x) = k) ->
  length (flat_map g xs) = (k * length xs)%nat.
Proof.
  intros Hk. induction xs as [|x xs IH]; simpl; [lia|].
  rewrite length_app, Hk, IH. lia.
Qed.

End Loops.

Section FullFrame.
Import Struct MakeSpans ImageConverter Dense.

Lemma dense_length (img : Image RGB) :
  length (dense img) = (fst (size img) * snd (size img) * 2)%nat.
Proof.
  unfold dense. destruct (size img) as [w h]. simpl.
  rewrite (flat_map_length_const _ (2 * w)).
  - unfold range. rewrite length_seq. lia.
  - intros y. rewrite (flat_map_length_const _ 2).
    + unfold range. rewrite length_seq. lia.
    + intros x. destruct (load img x y) as [[r g] b]. reflexivity.
Qed.

Lemma full_frame_dense (img : Image RGBA) :
  image_ok rgba_ok img -> full_frame img = Ok (dense (convert_RGB img)).
Proof.
  unfold image_ok, full_frame, dense. simpl. destruct (size img) as [w h].
  simpl. intros Hok.
  apply (for_in_append (range 0 h) _
           (fun y => flat_map (fun x => pixel_bytes
              (let '(r, g, b, _) := load img x y in (r, g, b))) (range 0 w)) ).
  intros acc y Hy. apply for_in_append. intros acc' x Hx.
  apply in_seq in Hy, Hx. specialize (Hok x y ltac:(lia) ltac:(lia)).
  destruct (load img x y) as [[[r g] b] a]. destruct Hok as (Hr & Hg & Hb & _).
  rewrite rgb888_to_rgb565_be_ok by assumption. reflexivity.
Qed.

Lemma slice_assign_fill (done bs : list Z) (m : nat) :
  slice_assign (done ++ repeat 0 (length bs + m)) (length done)
               (length done + length bs) bs
  = (done ++ bs) ++ repeat 0 m.
Proof.
  unfold slice_assign.
  rewrite take_app_length.
  rewrite drop_app_add'  by reflexivity.
  rewrite repeat_app, drop_app_length' by (rewrite repeat_length; reflexivity).
  rewrite app_assoc. reflexivity.
Qed.

Lemma for_in_fill {X : Type} (xs : list X)
    (body : list Z * nat -> X -> result (list Z * nat)) (g : X -> list Z) (k : nat) :
  (forall d m x, In x xs -> body (fill d (k + m)) x = Ok (fill (d ++ g x) m)) ->
  forall d n,
    for_in xs body (fill d (k * length xs + n)) = Ok (fill (d ++ flat_map g xs) n).
Proof.
  induction xs as [|x xs IH]; intros Hbody d n; simpl.
  - rewrite Nat.mul_0_r, app_nil_r. reflexivity.
  - replace (k * S (length xs) + n)%nat with (k + (k * length xs + n))%nat by lia.
    rewrite Hbody by (left; reflexivity). simpl.
    rewrite IH by (intros; apply Hbody; right; assumption).
    rewrite app_assoc. reflexivity.
Qed.

Lemma to_rgb565_be_bytes_dense (img : Image RGB) :
  image_ok rgb_ok img -> to_rgb565_be_bytes (ModeRGB img) = Ok (dense img).
Proof.
  unfold image_ok, to_rgb565_be_bytes, dense. destruct (size img) as [w h].
  simpl. intros Hok.
  pose (row := fun y => flat_map (fun x => pixel_bytes (load img x y)) (range 0 w)).
  change (repeat 0 (w * h * 2), 0%nat) with (fill [] (w * h * 2)).
  replace (w * h * 2)%nat with (2 * w * length (range 0 h) + 0)%nat
    by (unfold range; rewrite length_seq; lia).
  rewrite (for_in_fill (range 0 h) _ row (2 * w)).
  - simpl. rewrite app_nil_r. reflexivity.
  - intros d m y Hy.
    replace (2 * w + m)%nat with (2 * length (range 0 w) + m)%nat
      by (unfold range; rewrite length_seq; lia).
    apply for_in_fill. intros d' m' x Hx.
    apply in_seq in Hy, Hx. specialize (Hok x y ltac:(lia) ltac:(lia)).
    unfold fill at 1.
    destruct (load img x y) as [[r g] b] eqn:Hpx. destruct Hok as (Hr & Hg & Hb).
    rewrite pack_H_fits by (apply rgb565_range; assumption).
    cbv [mbind result_bind mret result_ret].
    rewrite (slice_assign_fill d' [_; _] m'). unfold fill.
    rewrite length_app. reflexivity.
Qed.

Lemma image_ok_convert_RGB (img : Image RGBA) :
  image_ok rgba_ok img -> image_ok rgb_ok (convert_RGB img).
Proof.
  intros Hok x y Hx Hy. specialize (Hok x y Hx Hy). simpl.
  destruct (load img x y) as [[[r g] b] a]. simpl in *. tauto.
Qed.

End FullFrame.

(** C4. For every image of width w and height h with 8-bit channels, the
    full-frame path of make_spans.py ([MakeSpans.full_frame]) and the raw
    export of image_converter.py ([ImageConverter.to_rgb565_be_bytes], on
    an RGB image and on an RGBA image it first converts) return the dense
    buffer [Dense.dense]: the two codec bytes of every pixel, row by row
    from the top and left to right within a row, key-coloured pixels
    included; its length is w * h * 2. *)
Theorem dense_full_frame (img : Image RGBA) (img3 : Image RGB) :
  image_ok rgba_ok img -> image_ok rgb_ok img3 ->
  MakeSpans.full_frame img = Ok (Dense.dense (convert_RGB img))
  /\ ImageConverter.to_rgb565_be_bytes (ImageConverter.ModeRGB img3)
     = Ok (Dense.dense img3)
  /\ ImageConverter.to_rgb565_be_bytes (ImageConverter.ModeRGBA img)
     = MakeSpans.full_frame img
  /\ length (Dense.dense (convert_RGB img))
     = (fst (size img) * snd (size img) * 2)%nat
  /\ length (Dense.dense img3) = (fst (size img3) * snd (size img3) * 2)%nat.
Proof.
  intros Hok Hok3.
  split; [apply full_frame_dense, Hok|].
  split; [apply to_rgb565_be_bytes_dense, Hok3|].
  split.
  - rewrite full_frame_dense by exact Hok.
    apply (to_rgb565_be_bytes_dense (convert_RGB img)), image_ok_convert_RGB, Hok.
  - split; [apply (dense_length (convert_RGB img)) | apply dense_length].
Qed.

Lemma dense_full_frame_witness :
  MakeSpans.full_frame Examples.scenario_2x2
  = Ok [0x8F; 0x01; 0xF8; 0x00; 0x8F; 0x01; 0x07; 0xE0].
Proof.
  apply (dense_full_frame Examples.scenario_2x2 (convert_RGB Examples.scenario_2x2)).
  - intros x y Hx Hy. simpl in Hx, Hy.
    destruct x as [|[|x]]; [| |lia]; (destruct y as [|[|y]]; [| |lia]);
      vm_compute; intuition discriminate.
  - intros x y Hx Hy. simpl in Hx, Hy.
    destruct x as [|[|x]]; [| |lia]; (destruct y as [|[|y]]; [| |lia]);
      vm_compute; intuition discriminate.
Defined.

Section RowScan.
Import MakeSpans Runs.
Variable pixels : nat -> nat -> RGBA.
Variable key_rgb : RGB.
Variable w : nat.
Variable y : nat.
Local Open Scope nat_scope.

Local Abbreviation opaque := (opaque_at pixels key_rgb y).
Local Abbreviation transparent c := (is_transparent key_rgb (pixels c y) = true).

(** The inner loop stops at the end of the span of opaque pixels that
    begins at [x]. *)
Lemma run_end_spec (fuel x : nat) :
  x <= w -> w - x < fuel ->
  exists x', run_end pixels key_rgb w y fuel x = Ok x'
    /\ x <= x' <= w
    /\ (forall c, x <= c < x' -> opaque c)
    /\ (x' < w -> transparent x').
Proof.
  revert x. induction fuel as [|fuel IH]; intros x Hx Hfuel; [lia|].
  simpl. destruct (Nat.ltb_spec x w) as [Hlt | Hge].
  - destruct (is_transparent key_rgb (pixels x y)) eqn:Ht.
    + exists x. repeat split; try lia. intros _. exact Ht.
    + destruct (IH (x + 1)) as (x' & Hrun & Hbounds & Hop & Hstop); [lia | lia |].
      exists x'. rewrite Hrun. repeat split; try lia; [|exact Hstop].
      intros c Hc. destruct (Nat.eq_dec c x) as [-> | Hne]; [exact Ht|].
      apply Hop. lia.
  - exists x. repeat split; try lia.
Qed.

Lemma scan_inv_start : scan_inv pixels key_rgb w y 0 [].
Proof.
  split.
  - constructor.
  - constructor.
  - intros r [].
  - intros c. split; [intros (r & [] & _) | lia].
Qed.

Lemma scan_inv_skip (x : nat) (runs : list (nat * nat)) :
  scan_inv pixels key_rgb w y x runs -> transparent x -> scan_inv pixels key_rgb w y (x + 1) runs.
Proof.
  intros [Hlen Hap Hcl Hcov] Ht. split.
  - eapply Forall_impl; [exact Hlen|]. simpl. intros r Hr. lia.
  - exact Hap.
  - intros r Hin Hend _. rewrite Forall_forall in Hlen.
    apply list_elem_of_In in Hin. specialize (Hlen r Hin). lia.
  - intros c. rewrite Hcov. unfold opaque_at. split.
    + intros [Hc Hop]. split; [lia | exact Hop].
    + intros [Hc Hop]. split; [|exact Hop].
      destruct (Nat.eq_dec c x) as [-> | Hne]; [congruence | lia].
Qed.

Lemma scan_inv_run (x x' : nat) (runs : list (nat * nat)) :
  scan_inv pixels key_rgb w y x runs -> x < x' <= w ->
  (forall c, x <= c < x' -> opaque c) ->
  (x' < w -> transparent x') ->
  scan_inv pixels key_rgb w y x' (runs ++ [(x, x' - x)]).
Proof.
  intros [Hlen Hap Hcl Hcov] Hx Hop Hstop.
  assert (Hx_op : opaque x) by (apply Hop; lia).
  assert (Hbefore : forall r, In r runs -> fst r + snd r < x).
  { intros r Hin. pose proof Hlen as Hlen'. rewrite Forall_forall in Hlen'.
    pose proof (Hlen' r (proj2 (list_elem_of_In _ _) Hin)) as [_ Hle].
    destruct (Nat.eq_dec (fst r + snd r) x) as [Heq | Hne]; [|lia].
    specialize (Hcl r Hin Heq ltac:(lia)). unfold opaque_at in Hx_op. congruence. }
  split.
  - apply Forall_app. split.
    + eapply Forall_impl; [exact Hlen|]. simpl. intros r Hr. lia.
    + constructor; [simpl; lia | constructor].
  - apply StronglySorted_app. repeat split.
    + intros r1 r2 H1 H2. apply list_elem_of_In in H1.
      apply list_elem_of_In in H2. destruct H2 as [<- | []].
      unfold apart. simpl. apply Hbefore, H1.
    + exact Hap.
    + repeat constructor.
  - intros r Hin Hend Hlt. exact (Hstop Hlt).
  - intros c. split.
    + intros (r & Hin & Hc). apply in_app_iff in Hin. destruct Hin as [Hin | [<- | []]].
      * assert (c < x /\ opaque c) as [? ?] by (apply Hcov; eauto).
        split; [lia | assumption].
      * unfold covers in Hc. simpl in Hc. split; [lia | apply Hop; lia].
    + intros [Hc Hopc]. destruct (Nat.lt_ge_cases c x) as [Hlt | Hge].
      * destruct (proj2 (Hcov c) (conj Hlt Hopc)) as (r & Hin & Hcr).
        exists r. split; [apply in_app_iff; left; exact Hin | exact Hcr].
      * exists (x, x' - x). split; [apply in_app_iff; right; left; reflexivity|].
        unfold covers. simpl. lia.
Qed.

(** The outer loop ends, with the invariant at [x = w]. *)
Lemma scan_row_spec (fuel x : nat) (acc : list (nat * nat)) :
  x <= w -> w - x < fuel -> scan_inv pixels key_rgb w y x acc ->
  exists runs, scan_row pixels key_rgb w y fuel x acc = Ok runs /\ scan_inv pixels key_rgb w y w runs.
Proof.
  revert x acc. induction fuel as [|fuel IH]; intros x acc Hx Hfuel Hinv; [lia|].
  cbn [scan_row]. destruct (Nat.ltb_spec x w) as [Hlt | Hge].
  - destruct (is_transparent key_rgb (pixels x y)) eqn:Ht.
    + apply IH; [lia | lia | apply scan_inv_skip; assumption].
    + destruct (run_end_spec (S (w - x)) x) as (x' & Hrun & Hbounds & Hop & Hstop);
        [lia | lia |].
      rewrite Hrun. cbv [mbind result_bind].
      assert (x < x').
      { destruct (Nat.eq_dec x' x) as [-> | Hne]; [|lia].
        specialize (Hstop Hlt). congruence. }
      apply IH; [lia | lia |].
      apply scan_inv_run; [assumption | lia | assumption | assumption].
  - exists acc. split; [reflexivity|].
    assert (Hxw : x = w) by lia. rewrite Hxw in Hinv. exact Hinv.
Qed.

(** In a list sorted by [apart], an earlier run ends before a later one
    begins. *)
Lemma apart_lookup (runs : list (nat * nat)) (i j : nat) (r1 r2 : nat * nat) :
  StronglySorted apart runs ->
  runs !! i = Some r1 -> runs !! j = Some r2 -> i < j -> apart r1 r2.
Proof.
  intros Hs. revert i j. induction Hs as [|r runs Hs IH Hall]; intros i j H1 H2 Hij.
  - rewrite lookup_nil in H1. discriminate.
  - destruct j as [|j]; [lia|]. simpl in H2.
    destruct i as [|i].
    + simpl in H1. injection H1 as <-.
      rewrite Forall_forall in Hall. apply Hall.
      eapply list_elem_of_lookup_2, H2.
    + simpl in H1. apply (IH i j); [assumption | assumption | lia].
Qed.

End RowScan.

Section RunsOfSortedRows.
Import Runs.
Local Open Scope nat_scope.

Lemma apart_starts_before (runs : list (nat * nat)) :
  StronglySorted apart runs -> StronglySorted starts_before runs.
Proof.
  induction 1 as [|r runs Hs IH Hall]; constructor; [exact IH|].
  eapply Forall_impl; [exact Hall|]. unfold apart, starts_before. intros; lia.
Qed.

(** Two runs of a list sorted by [apart] that share a column are the
    same entry of the list. *)
Lemma apart_disjoint (runs : list (nat * nat)) (i j : nat) (r1 r2 : nat * nat) (c : nat) :
  StronglySorted apart runs ->
  runs !! i = Some r1 -> runs !! j = Some r2 ->
  r1.1 <= c -> c <= r1.1 + r1.2 -> r2.1 <= c -> c <= r2.1 + r2.2 -> i = j.
Proof.
  intros Hs H1 H2 Ha Hb Hc Hd.
  destruct (Nat.lt_total i j) as [Hlt | [Heq | Hgt]]; [|exact Heq|].
  - pose proof (apart_lookup runs i j r1 r2 Hs H1 H2 Hlt) as Hap.
    unfold apart in Hap. lia.
  - pose proof (apart_lookup runs j i r2 r1 Hs H2 H1 Hgt) as Hap.
    unfold apart in Hap. lia.
Qed.

End RunsOfSortedRows.

Section CoveringRuns.
Import MakeSpans Runs.
Local Open Scope nat_scope.
Variable pixels : nat -> nat -> RGBA.
Variable key_rgb : RGB.
Variable w y : nat.
Variable runs : list (nat * nat).
Hypothesis Hlen : Forall (fun r => 1 <= snd r /\ fst r + snd r <= w) runs.
Hypothesis Hap : StronglySorted apart runs.
Hypothesis Hcov : forall c,
  (exists r, In r runs /\ covers r c) <-> c < w /\ opaque_at pixels key_rgb y c.

Lemma covering_runs_disjoint (i j : nat) (r1 r2 : nat * nat) (c : nat) :
  runs !! i = Some r1 -> runs !! j = Some r2 ->
  covers r1 c -> covers r2 c -> i = j.
Proof.
  intros H1 H2 [? ?] [? ?].
  apply (apart_disjoint runs i j r1 r2 c); try assumption; lia.
Qed.

Lemma covering_runs_same (r1 r2 : nat * nat) (c : nat) :
  In r1 runs -> In r2 runs -> covers r1 c -> covers r2 c -> r1 = r2.
Proof.
  intros Hin1 Hin2 Hc1 Hc2.
  apply list_elem_of_In, list_elem_of_lookup in Hin1 as [i Hi].
  apply list_elem_of_In, list_elem_of_lookup in Hin2 as [j Hj].
  assert (i = j) as <- by (eapply covering_runs_disjoint; eassumption).
  congruence.
Qed.

Lemma covering_runs_adjacent (c : nat) :
  S c < w -> opaque_at pixels key_rgb y c -> opaque_at pixels key_rgb y (S c) ->
  exists r, In r runs /\ covers r c /\ covers r (S c).
Proof.
  intros Hc Hop Hop'.
  assert (Hc' : c < w) by lia.
  destruct (proj2 (Hcov c) (conj Hc' Hop)) as (r1 & Hin1 & Hc1).
  destruct (proj2 (Hcov (S c)) (conj Hc Hop')) as (r2 & Hin2 & Hc2).
  apply list_elem_of_In, list_elem_of_lookup in Hin1 as Hi. destruct Hi as [i Hi].
  apply list_elem_of_In, list_elem_of_lookup in Hin2 as Hj. destruct Hj as [j Hj].
  unfold covers in *.
  assert (i = j) as <-.
  { apply (apart_disjoint runs i j r1 r2 (S c)); try assumption; lia. }
  assert (r1 = r2) as <- by congruence.
  exists r1. split; [apply list_elem_of_In, Hin1|]. split; assumption.
Qed.

(** A run cannot be extended on either side. *)
Lemma covering_runs_maximal (r : nat * nat) :
  In r runs ->
  (fst r = 0 \/ is_transparent key_rgb (pixels (fst r - 1) y) = true)
  /\ (fst r + snd r = w \/ is_transparent key_rgb (pixels (fst r + snd r) y) = true).
Proof.
  intros Hin.
  pose proof Hlen as Hlen'. rewrite Forall_forall in Hlen'.
  destruct (Hlen' r (proj2 (list_elem_of_In _ _) Hin)) as [Hpos Hend].
  assert (Hfirst : opaque_at pixels key_rgb y (fst r)).
  { apply Hcov. exists r. split; [exact Hin | unfold covers; lia]. }
  assert (Hlast : opaque_at pixels key_rgb y (fst r + snd r - 1)).
  { apply Hcov. exists r. split; [exact Hin | unfold covers; lia]. }
  split.
  - destruct (Nat.eq_dec (fst r) 0) as [Hz | Hnz]; [left; exact Hz | right].
    destruct (is_transparent key_rgb (pixels (fst r - 1) y)) eqn:Ht; [reflexivity|].
    destruct (covering_runs_adjacent (fst r - 1)) as (r' & Hin' & Hc1 & Hc2).
    + lia.
    + exact Ht.
    + replace (S (fst r - 1)) with (fst r) by lia. exact Hfirst.
    + replace (S (fst r - 1)) with (fst r) in Hc2 by lia.
      assert (r' = r) as ->.
      { apply (covering_runs_same r' r (fst r)); try assumption. unfold covers; lia. }
      unfold covers in Hc1. lia.
  - destruct (Nat.eq_dec (fst r + snd r) w) as [Hw | Hnw]; [left; exact Hw | right].
    destruct (is_transparent key_rgb (pixels (fst r + snd r) y)) eqn:Ht; [reflexivity|].
    destruct (covering_runs_adjacent (fst r + snd r - 1)) as (r' & Hin' & Hc1 & Hc2).
    + lia.
    + exact Hlast.
    + replace (S (fst r + snd r - 1)) with (fst r + snd r) by lia. exact Ht.
    + replace (S (fst r + snd r - 1)) with (fst r + snd r) in Hc2 by lia.
      assert (r' = r) as ->.
      { apply (covering_runs_same r' r (fst r + snd r - 1)); try assumption.
        unfold covers; lia. }
      unfold covers in Hc2. lia.
Qed.

End CoveringRuns.

(** C1. For every row [y] of every image, the scanner of the sprite
    encoder ends with a list of runs in which every run has length at
    least 1 and ends inside the row, the start positions increase
    strictly from left to right, a later run begins after the end of an
    earlier one (so no column lies in two runs), two adjacent
    non-transparent pixels lie in one and the same run, a run is bordered
    on each side by the edge of the row or by a transparent pixel, and
    the columns of the runs are exactly the non-transparent columns of
    the row. *)
Theorem runs_are_maximal_spans (pixels : nat -> nat -> RGBA) (key_rgb : RGB)
    (w y : nat) :
  exists runs : list (nat * nat),
    MakeSpans.row_runs_of pixels key_rgb w y = Ok runs
    /\ Forall (fun r => (1 <= snd r)%nat /\ (fst r + snd r <= w)%nat) runs
    /\ StronglySorted Runs.starts_before runs
    /\ StronglySorted Runs.apart runs
    /\ (forall i j r1 r2 c,
          runs !! i = Some r1 -> runs !! j = Some r2 ->
          Runs.covers r1 c -> Runs.covers r2 c -> i = j)
    /\ (forall c, (S c < w)%nat ->
          Runs.opaque_at pixels key_rgb y c ->
          Runs.opaque_at pixels key_rgb y (S c) ->
          exists r, In r runs /\ Runs.covers r c /\ Runs.covers r (S c))
    /\ (forall r, In r runs ->
          (fst r = 0%nat
           \/ MakeSpans.is_transparent key_rgb (pixels (fst r - 1)%nat y) = true)
          /\ ((fst r + snd r)%nat = w
              \/ MakeSpans.is_transparent key_rgb (pixels (fst r + snd r)%nat y) = true))
    /\ (forall c, (exists r, In r runs /\ Runs.covers r c)
                  <-> (c < w)%nat /\ Runs.opaque_at pixels key_rgb y c).
Proof.
  destruct (scan_row_spec pixels key_rgb w y (S w) 0 []) as (runs & Hrun & Hinv);
    [lia | lia | apply scan_inv_start |].
  destruct Hinv as [Hlen Hap _ Hcov].
  exists runs. split; [exact Hrun|]. split; [exact Hlen|].
  split; [apply apart_starts_before, Hap|]. split; [exact Hap|].
  split; [intros i j r1 r2 c; apply covering_runs_disjoint; assumption|].
  split; [apply (covering_runs_adjacent pixels key_rgb w y runs Hap Hcov)|].
  split; [apply (covering_runs_maximal pixels key_rgb w y runs Hlen Hap Hcov)|].
  exact Hcov.
Qed.

Section Transparency.
Import MakeSpans.

Lemma is_transparent_iff (key_rgb : RGB) (r g b a : Z) :
  is_transparent key_rgb (r, g, b, a) = true <-> (r, g, b) = key_rgb \/ a = 0.
Proof.
  unfold is_transparent, rgb_eqb. destruct key_rgb as [[kr kg] kb].
  rewrite orb_true_iff, !andb_true_iff, !Z.eqb_eq.
  split; intros [H | H]; auto; left.
  - destruct H as [[-> ->] ->]. reflexivity.
  - injection H as -> -> ->. auto.
Qed.

(** A row of a single pixel has no run when the pixel is transparent
    and the run [(0, 1)] when it is not. *)
Lemma single_pixel_row (key_rgb : RGB) (p : RGBA) (y : nat) :
  row_runs_of (fun _ _ => p) key_rgb 1 y
  = Ok (if is_transparent key_rgb p then [] else [(0%nat, 1%nat)]).
Proof.
  unfold row_runs_of. cbn. destruct (is_transparent key_rgb p); reflexivity.
Qed.

End Transparency.

(** C3. A pixel (R, G, B, A) is transparent for the sprite encoder exactly
    when its RGB triple is the key colour (0x8B, 0xE3, 0x08) or its alpha
    is zero; the opaque pixel of the key colour is transparent; and the
    encoder, whose key is [LIME_KEY] for every image, emits no run for a
    transparent pixel and the run (0, 1) for any other. *)
Theorem transparent_iff_key_or_alpha_zero (r g b a : Z) :
  (MakeSpans.is_transparent MakeSpans.LIME_KEY (r, g, b, a) = true
   <-> (r = 0x8B /\ g = 0xE3 /\ b = 0x08) \/ a = 0)
  /\ MakeSpans.is_transparent MakeSpans.LIME_KEY (0x8B, 0xE3, 0x08, 255) = true
  /\ (forall (img : Image RGBA) (y : nat),
        MakeSpans.row_runs_of (fun _ _ => (r, g, b, a))
          (snd (MakeSpans.pick_key_color img)) 1 y
        = Ok (if MakeSpans.is_transparent MakeSpans.LIME_KEY (r, g, b, a)
              then [] else [(0%nat, 1%nat)])).
Proof.
  split; [|split; [reflexivity | intros img y; apply single_pixel_row]].
  rewrite is_transparent_iff. unfold MakeSpans.LIME_KEY.
  split; (intros [H | H]; [left | right; exact H]).
  - injection H as -> -> ->. auto.
  - destruct H as (-> & -> & ->). reflexivity.
Qed.

Section Sprite.
Import Struct MakeSpans Runs.

(** The loop rule for [for_in]: an invariant kept by a body that does
    not fail holds of the final state, and the loop does not fail. *)
Lemma for_in_invariant {S X : Type} (I : S -> Prop) (xs : list X)
    (body : S -> X -> result S) :
  (forall s x, In x xs -> I s -> exists s', body s x = Ok s' /\ I s') ->
  forall s, I s -> exists s', for_in xs body s = Ok s' /\ I s'.
Proof.
  induction xs as [|x xs IH]; intros Hbody s Hs; simpl.
  - exists s. split; [reflexivity | exact Hs].
  - destruct (Hbody s x (or_introl eq_refl) Hs) as (s1 & Hs1 & HI1).
    rewrite Hs1. cbv [mbind result_bind].
    apply IH; [|exact HI1]. intros s0 x0 Hin. apply Hbody. right. exact Hin.
Qed.

Lemma key565_value :
  rgb888_to_rgb565_be 0x8B 0xE3 0x08 = Ok [0x8F; 0x01]
  /\ unpack_H [0x8F; 0x01] = Ok 0x8F01.
Proof. split; reflexivity. Qed.

(** [sprite_rle] once the key colour has been computed. *)
Lemma sprite_rle_unfold (img : Image RGBA) :
  sprite_rle img =
  (hdr ← pack_HHH (Z.of_nat (fst (size img))) (Z.of_nat (snd (size img))) 0x8F01;
   for_in (range 0 (snd (size img))) (fun st y =>
     row_runs ← row_runs_of (load img) LIME_KEY (fst (size img)) y;
     emit_row (load img) y row_runs st) (hdr, 0%nat)).
Proof. unfold sprite_rle. destruct (size img) as [w h]. reflexivity. Qed.

Lemma pack_H_too_big (v : Z) : 65535 < v -> pack_H v = StructError.
Proof.
  intros Hv. unfold pack_H, fits_H.
  destruct (Z.leb_spec v 65535); [lia|]. rewrite andb_false_r. reflexivity.
Qed.

Lemma pack_HHH_too_big (a b c : Z) :
  65535 < a \/ 65535 < b -> pack_HHH a b c = StructError.
Proof.
  intros Hab. unfold pack_HHH.
  destruct (Z_lt_dec 65535 a) as [Ha | Ha].
  - rewrite (pack_H_too_big a Ha). reflexivity.
  - assert (Hb : 65535 < b) by lia.
    rewrite (pack_H_too_big b Hb). unfold pack_H.
    destruct (fits_H a); reflexivity.
Qed.

Lemma pack_HHH_fits (a b c : Z) :
  0 <= a <= 65535 -> 0 <= b <= 65535 -> 0 <= c <= 65535 ->
  pack_HHH a b c = Ok ([Z.shiftr a 8; Z.land a 255] ++ [Z.shiftr b 8; Z.land b 255]
                       ++ [Z.shiftr c 8; Z.land c 255]).
Proof.
  intros Ha Hb Hc. unfold pack_HHH. rewrite !pack_H_fits by assumption. reflexivity.
Qed.

Lemma pack_HH_fits (a b : Z) :
  0 <= a <= 65535 -> 0 <= b <= 65535 ->
  pack_HH a b = Ok ([Z.shiftr a 8; Z.land a 255] ++ [Z.shiftr b 8; Z.land b 255]).
Proof.
  intros Ha Hb. unfold pack_HH. rewrite !pack_H_fits by assumption. reflexivity.
Qed.

(** Strictly increasing starts below [w] bound the number of runs. *)
Lemma sorted_runs_count (w : nat) (runs : list (nat * nat)) :
  StronglySorted starts_before runs ->
  forall lo : nat,
  Forall (fun r => (lo <= fst r)%nat /\ (fst r < w)%nat) runs ->
  (length runs <= w - lo)%nat.
Proof.
  induction 1 as [|r runs Hs IH Hall]; intros lo Hb; simpl; [lia|].
  apply Forall_cons in Hb as [[Hlo Hw] Hb].
  assert (Hlen : (length runs <= w - S (fst r))%nat).
  { apply IH. rewrite Forall_forall in Hall, Hb. apply Forall_forall.
    intros r' Hin. specialize (Hall r' Hin). specialize (Hb r' Hin).
    unfold starts_before in Hall. lia. }
  lia.
Qed.

End Sprite.

Section SpriteBuffer.
Import Struct MakeSpans Runs.

Lemma bind_Ok {A B : Type} (a : A) (f : A -> result B) : (Ok a ≫= f) = f a.
Proof. reflexivity. Qed.

Lemma transparent_row_no_runs (pixels : nat -> nat -> RGBA) (key_rgb : RGB)
    (w y : nat) :
  (forall x, (x < w)%nat -> is_transparent key_rgb (pixels x y) = true) ->
  row_runs_of pixels key_rgb w y = Ok [].
Proof.
  intros Hall.
  destruct (scan_row_spec pixels key_rgb w y (S w) 0 []) as (runs & Hrun & Hinv);
    [lia | lia | apply scan_inv_start |].
  unfold row_runs_of. rewrite Hrun. f_equal.
  destruct runs as [|r runs]; [reflexivity | exfalso].
  destruct Hinv as [Hlen _ _ Hcov].
  apply Forall_cons in Hlen as [[Hpos Hend] _].
  destruct (proj1 (Hcov (fst r))) as [Hlt Hop].
  - exists r. split; [left; reflexivity | unfold covers; lia].
  - unfold opaque_at in Hop. rewrite Hall in Hop by exact Hlt. discriminate.
Qed.

Lemma emit_row_no_runs (pixels : nat -> nat -> RGBA) (y : nat) (st : list Z * nat) :
  emit_row pixels y [] st = Ok (fst st ++ [0; 0], snd st).
Proof. destruct st as [rle total]. reflexivity. Qed.

(** Rows that each add two zero bytes and leave the count alone. *)
Lemma for_in_empty_rows (ys : list nat)
    (body : list Z * nat -> nat -> result (list Z * nat)) :
  (forall st y, In y ys -> body st y = Ok (fst st ++ [0; 0], snd st)) ->
  forall st, for_in ys body st
             = Ok (fst st ++ flat_map (fun _ => [0; 0]) ys, snd st).
Proof.
  induction ys as [|y ys IH]; intros Hbody st; simpl.
  - rewrite app_nil_r. destruct st; reflexivity.
  - rewrite Hbody by (left; reflexivity). cbv [mbind result_bind].
    rewrite IH by (intros; apply Hbody; right; assumption).
    simpl. rewrite <- app_assoc. reflexivity.
Qed.

Lemma emit_row_total (pixels : nat -> nat -> RGBA) (w y : nat)
    (runs : list (nat * nat)) (st : list Z * nat) :
  (forall x, (x < w)%nat -> rgba_ok (pixels x y)) ->
  Z.of_nat w <= 65535 ->
  Forall (fun r => (fst r + snd r <= w)%nat) runs ->
  Z.of_nat (length runs) <= 65535 ->
  exists st', emit_row pixels y runs st = Ok st'.
Proof.
  intros Hpx Hw Hruns Hcount. unfold emit_row. destruct st as [rle total].
  rewrite pack_H_fits by lia. rewrite bind_Ok.
  match goal with
  | |- exists st', for_in runs ?f ?s0 = Ok st' =>
      destruct (for_in_invariant (fun _ => True) runs f) with (s := s0)
        as (st' & Hst' & _); [|exact I|exists st'; exact Hst']
  end.
  intros [rle' total'] [sx ln] Hin _.
  rewrite Forall_forall in Hruns.
  pose proof (Hruns _ (proj2 (list_elem_of_In _ _) Hin)) as Hr. simpl in Hr.
  rewrite pack_HH_fits by lia. rewrite bind_Ok.
  match goal with
  | |- context [for_in (range sx ln) ?f ?s0] =>
      destruct (for_in_invariant (fun _ => True) (range sx ln) f) with (s := s0)
        as (rle'' & Hrle'' & _); [|exact I|]
  end.
  - intros acc px Hpx_in _. apply in_seq in Hpx_in.
    assert (Hlt : (px < w)%nat) by lia. specialize (Hpx px Hlt).
    destruct (pixels px y) as [[[r g] b] a]. destruct Hpx as (Hr' & Hg & Hb & _).
    rewrite rgb888_to_rgb565_be_ok by assumption.
    eexists. split; [reflexivity | exact I].
  - rewrite Hrle''. eexists. split; [reflexivity | exact I].
Qed.

End SpriteBuffer.

Section SpriteTotal.
Import Struct MakeSpans Runs.

(** The runs of a row and their count fit 16-bit fields when the width
    does. *)
Lemma row_runs_fit (pixels : nat -> nat -> RGBA) (key_rgb : RGB) (w y : nat) :
  Z.of_nat w <= 65535 ->
  exists runs, row_runs_of pixels key_rgb w y = Ok runs
    /\ Z.of_nat (length runs) <= 65535
    /\ Forall (fun r => (fst r + snd r <= w)%nat) runs.
Proof.
  intros Hw.
  destruct (scan_row_spec pixels key_rgb w y (S w) 0 []) as (runs & Hrun & Hinv);
    [lia | lia | apply scan_inv_start |].
  destruct Hinv as [Hlen Hap _ _].
  exists runs. split; [exact Hrun|].
  assert (Hcount : (length runs <= w - 0)%nat).
  { apply sorted_runs_count; [apply apart_starts_before, Hap|].
    eapply Forall_impl; [exact Hlen|]. simpl. intros r Hr. lia. }
  split; [lia|].
  eapply Forall_impl; [exact Hlen|]. simpl. intros r Hr. lia.
Qed.

Lemma sprite_rle_total (img : Image RGBA) :
  Z.of_nat (fst (size img)) <= 65535 -> Z.of_nat (snd (size img)) <= 65535 ->
  image_ok rgba_ok img ->
  exists rle total, sprite_rle img = Ok (rle, total).
Proof.
  intros Hw Hh Hok. rewrite sprite_rle_unfold.
  rewrite pack_HHH_fits by lia. rewrite bind_Ok.
  match goal with
  | |- exists rle total, for_in ?ys ?f ?s0 = _ =>
      destruct (for_in_invariant (fun _ => True) ys f) with (s := s0)
        as ([rle total] & Hst & _); [|exact I|exists rle, total; exact Hst]
  end.
  intros st y Hy _. apply in_seq in Hy.
  destruct (row_runs_fit (load img) LIME_KEY (fst (size img)) y Hw)
    as (runs & Hruns & Hcount & Hfit).
  rewrite Hruns, bind_Ok.
  destruct (emit_row_total (load img) (fst (size img)) y runs st) as [st' Hst'];
    try assumption.
  - intros x Hx. apply Hok; [exact Hx | lia].
  - exists st'. split; [exact Hst' | exact I].
Qed.

Lemma sprite_rle_all_transparent (img : Image RGBA) :
  Z.of_nat (fst (size img)) <= 65535 -> Z.of_nat (snd (size img)) <= 65535 ->
  (forall x y, (x < fst (size img))%nat -> (y < snd (size img))%nat ->
     is_transparent LIME_KEY (load img x y) = true) ->
  sprite_rle img
  = Ok ([Z.shiftr (Z.of_nat (fst (size img))) 8; Z.land (Z.of_nat (fst (size img))) 255;
         Z.shiftr (Z.of_nat (snd (size img))) 8; Z.land (Z.of_nat (snd (size img))) 255;
         0x8F; 0x01]
        ++ flat_map (fun _ => [0; 0]) (range 0 (snd (size img))), 0%nat).
Proof.
  intros Hw Hh Hall. rewrite sprite_rle_unfold.
  rewrite pack_HHH_fits by lia. rewrite bind_Ok.
  rewrite for_in_empty_rows; [reflexivity|].
  intros st y Hy. apply in_seq in Hy.
  rewrite transparent_row_no_runs by (intros x Hx; apply Hall; [exact Hx | lia]).
  rewrite bind_Ok. apply emit_row_no_runs.
Qed.

End SpriteTotal.

(** C5, amended. For every image of width w <= 65535 and height
    h <= 65535 in which every pixel is transparent, the sprite encoder
    returns the 6-byte header (width, height and the key colour 0x8F01,
    big-endian) followed by h run counts of two zero bytes each and no
    pixel bytes, 6 + 2 * h bytes in all, every row has no run, and the
    count of opaque pixels is 0. *)
Theorem all_transparent_sprite (img : Image RGBA) :
  Z.of_nat (fst (size img)) <= 65535 -> Z.of_nat (snd (size img)) <= 65535 ->
  (forall x y, (x < fst (size img))%nat -> (y < snd (size img))%nat ->
     MakeSpans.is_transparent MakeSpans.LIME_KEY (load img x y) = true) ->
  let w := Z.of_nat (fst (size img)) in
  let h := Z.of_nat (snd (size img)) in
  let header := [Z.shiftr w 8; Z.land w 255; Z.shiftr h 8; Z.land h 255; 0x8F; 0x01] in
  let counts := flat_map (fun _ : nat => [0; 0]) (range 0 (snd (size img))) in
  MakeSpans.sprite_rle img = Ok (header ++ counts, 0%nat)
  /\ Struct.pack_HHH w h 0x8F01 = Ok header
  /\ length (header ++ counts) = (6 + 2 * snd (size img))%nat
  /\ (forall y, (y < snd (size img))%nat ->
        MakeSpans.row_runs_of (load img) MakeSpans.LIME_KEY (fst (size img)) y = Ok []).
Proof.
  intros Hw Hh Hall w h header counts.
  split; [apply sprite_rle_all_transparent; assumption|].
  split; [apply pack_HHH_fits; lia|].
  split.
  - rewrite length_app. unfold counts.
    rewrite (flat_map_length_const _ 2) by reflexivity.
    unfold range. rewrite length_seq. simpl. lia.
  - intros y Hy. apply transparent_row_no_runs. intros x Hx. apply Hall; assumption.
Qed.

Lemma all_transparent_sprite_witness :
  MakeSpans.sprite_rle (Examples.all_key 3 2)
  = Ok ([0; 3; 0; 2; 0x8F; 0x01; 0; 0; 0; 0], 0%nat).
Proof.
  apply (all_transparent_sprite (Examples.all_key 3 2)).
  - simpl. lia.
  - simpl. lia.
  - intros x y _ _. reflexivity.
Defined.

(** C5 as stated fails on an image 65536 pixels wide: every pixel is
    transparent, and packing the header raises [struct.error]. *)
Lemma all_transparent_too_wide :
  (forall x y, (x < fst (size Examples.too_wide))%nat ->
               (y < snd (size Examples.too_wide))%nat ->
     MakeSpans.is_transparent MakeSpans.LIME_KEY (load Examples.too_wide x y) = true)
  /\ MakeSpans.sprite_rle Examples.too_wide = StructError
  /\ (forall out, MakeSpans.sprite_rle Examples.too_wide <> Ok out).
Proof.
  assert (H : MakeSpans.sprite_rle Examples.too_wide = StructError).
  { rewrite sprite_rle_unfold. rewrite pack_HHH_too_big; [reflexivity|].
    left. vm_compute. reflexivity. }
  split; [intros x y _ _; reflexivity|].
  split; [exact H|]. intros out. rewrite H. discriminate.
Qed.

(** C6. The 2x2 image with row-major pixels (139,227,8,255), (255,0,0,255),
    (139,227,8,255), (0,255,0,255) encodes to the header, then for row 0
    one run (startX = 1, length = 1) with the bytes of red 0xF800, then
    for row 1 one run (startX = 1, length = 1) with the bytes of green
    0x07E0; the pixels (0,0) and (0,1) are key-coloured. *)
Theorem two_by_two_sprite_buffer :
  MakeSpans.sprite_rle Examples.scenario_2x2
  = Ok ([0; 2; 0; 2; 0x8F; 0x01;
         0; 1;  0; 1; 0; 1;  0xF8; 0x00;
         0; 1;  0; 1; 0; 1;  0x07; 0xE0], 2%nat)
  /\ MakeSpans.row_runs_of (load Examples.scenario_2x2) MakeSpans.LIME_KEY 2 0
     = Ok [(1%nat, 1%nat)]
  /\ MakeSpans.row_runs_of (load Examples.scenario_2x2) MakeSpans.LIME_KEY 2 1
     = Ok [(1%nat, 1%nat)]
  /\ MakeSpans.rgb888_to_rgb565_be 255 0 0 = Ok [0xF8; 0x00]
  /\ MakeSpans.rgb888_to_rgb565_be 0 255 0 = Ok [0x07; 0xE0]
  /\ MakeSpans.is_transparent MakeSpans.LIME_KEY (load Examples.scenario_2x2 0 0) = true
  /\ MakeSpans.is_transparent MakeSpans.LIME_KEY (load Examples.scenario_2x2 0 1) = true.
Proof. repeat split; vm_compute; reflexivity. Qed.

(** C10. When the width or the height of an image exceeds 65535, packing
    the header raises [struct.error] and so does the sprite encoder;
    when both are at most 65535 the header packs, and in every row the
    run count and the start and length of every run are in 0..65535 and
    pack, so that on an image with 8-bit channels the encoder returns
    its buffer. *)
Theorem sprite_fields_fit_u16 (img : Image RGBA) :
  let w := fst (size img) in
  let h := snd (size img) in
  ((65535 < Z.of_nat w \/ 65535 < Z.of_nat h) ->
     Struct.pack_HHH (Z.of_nat w) (Z.of_nat h) 0x8F01 = StructError
     /\ MakeSpans.sprite_rle img = StructError)
  /\ (Z.of_nat w <= 65535 -> Z.of_nat h <= 65535 ->
      (exists hdr, Struct.pack_HHH (Z.of_nat w) (Z.of_nat h) 0x8F01 = Ok hdr)
      /\ (forall y, exists runs,
            MakeSpans.row_runs_of (load img) MakeSpans.LIME_KEY w y = Ok runs
            /\ (exists cnt, Struct.pack_H (Z.of_nat (length runs)) = Ok cnt)
            /\ Forall (fun r => 0 <= Z.of_nat (fst r) <= 65535
                                /\ 0 <= Z.of_nat (snd r) <= 65535
                                /\ exists hdr, Struct.pack_HH (Z.of_nat (fst r))
                                                 (Z.of_nat (snd r)) = Ok hdr) runs)
      /\ (image_ok rgba_ok img ->
          exists rle total, MakeSpans.sprite_rle img = Ok (rle, total))).
Proof.
  intros w h. split.
  - intros Hbig. split; [apply pack_HHH_too_big, Hbig|].
    rewrite sprite_rle_unfold. fold w h.
    rewrite pack_HHH_too_big by exact Hbig. reflexivity.
  - intros Hw Hh. split; [|split].
    + eexists. apply pack_HHH_fits; lia.
    + intros y.
      destruct (row_runs_fit (load img) MakeSpans.LIME_KEY w y Hw)
        as (runs & Hruns & Hcount & Hfit).
      exists runs. split; [exact Hruns|]. split.
      * eexists. apply pack_H_fits. lia.
      * eapply Forall_impl; [exact Hfit|]. simpl. intros r Hr.
        split; [lia|]. split; [lia|]. eexists. apply pack_HH_fits; lia.
    + intros Hok. apply sprite_rle_total; assumption.
Qed.

Lemma sprite_fields_fit_u16_witness :
  MakeSpans.sprite_rle Examples.too_wide = StructError
  /\ exists rle total, MakeSpans.sprite_rle Examples.scenario_2x2 = Ok (rle, total).
Proof.
  split.
  - apply (sprite_fields_fit_u16 Examples.too_wide).
    left. vm_compute. reflexivity.
  - apply (sprite_fields_fit_u16 Examples.scenario_2x2).
    + simpl. lia.
    + simpl. lia.
    + intros x y Hx Hy. simpl in Hx, Hy.
      destruct x as [|[|x]]; [| |lia]; (destruct y as [|[|y]]; [| |lia]);
        vm_compute; intuition discriminate.
Defined.

Section CompressOne.
Import PackAssets Batch.
Variable unicode_span : list ascii -> list Z * list ascii.
Variable zlib_compress : list Z -> Z -> list Z.

(** Unfolds the monadic operations of the script. *)
Ltac run :=
  cbv [compress_one read_bytes path_exists write_bytes print emit get_fs put_fs
       raise sys_exit mbind M_bind mret M_ret fs log].

Lemma compress_one_name_mismatch (path : string) (lvl : Z) (force overwrite : bool)
    (s : World) :
  size_from_name unicode_span path = None ->
  compress_one unicode_span zlib_compress path lvl force overwrite s
  = (Val false, mkWorld (fs s) (log s ++ [EPrint (MsgSkipName (path_name path))])).
Proof. intros Hname. unfold compress_one. rewrite Hname. reflexivity. Qed.

Lemma compress_one_size_mismatch (path : string) (w h lvl : Z) (data : list Z)
    (overwrite : bool) (s : World) :
  size_from_name unicode_span path = Some (w, h) ->
  fs s !! path = Some data ->
  Z.of_nat (length data) <> w * h * 2 ->
  compress_one unicode_span zlib_compress path lvl false overwrite s
  = (Val false,
     mkWorld (fs s)
       (log s ++ [ERead path;
                  EPrint (MsgSizeError (path_name path) (Z.of_nat (length data))
                            (w * h * 2) w h)])).
Proof.
  intros Hname Hdata Hlen. unfold compress_one. rewrite Hname. run.
  destruct s as [m lg]. simpl in *. rewrite Hdata.
  destruct (Z.eqb_spec (Z.of_nat (length data)) (w * h * 2)); [contradiction|].
  simpl. rewrite <- app_assoc. reflexivity.
Qed.

(** The file is read and passes the size check, or the check is waived. *)
Lemma compress_one_checked (path : string) (w h lvl : Z) (data : list Z)
    (force overwrite : bool) (s : World) :
  size_from_name unicode_span path = Some (w, h) ->
  fs s !! path = Some data ->
  Z.of_nat (length data) = w * h * 2 \/ force = true ->
  zlib_level_ok lvl = true ->
  let out := (path +:+ ".zlib")%string in
  compress_one unicode_span zlib_compress path lvl force overwrite s
  = if bool_decide (is_Some (fs s !! out)) && negb overwrite then
      (Val true,
       mkWorld (fs s)
         (log s ++ [ERead path; EExists out; EPrint (MsgSkipExists (path_name out))]))
    else
      (Val true,
       mkWorld (<[out := zlib_compress data lvl]> (fs s))
         (log s ++ [ERead path; EExists out; EWrite out;
                    EPrint (MsgOk (path_name path) (path_name out) (length data)
                              (length (zlib_compress data lvl)))])).
Proof.
  intros Hname Hdata Hpass Hlvl out. unfold compress_one. rewrite Hname, Hlvl. run.
  destruct s as [m lg]. simpl in *. rewrite Hdata.
  assert (Hchk : negb (Z.of_nat (length data) =? w * h * 2) && negb force = false).
  { destruct Hpass as [-> | ->]; [rewrite Z.eqb_refl; reflexivity | apply andb_false_r]. }
  rewrite Hchk. fold out.
  destruct (bool_decide (is_Some (m !! out)) && negb overwrite); simpl;
    rewrite <- ?app_assoc; reflexivity.
Qed.

Lemma compress_one_no_exit (path : string) (lvl : Z) (force overwrite : bool)
    (s s' : World) (c : Z) :
  compress_one unicode_span zlib_compress path lvl force overwrite s <> (Exit c, s').
Proof.
  destruct s as [m lg]. unfold compress_one.
  destruct (size_from_name unicode_span path) as [[w h]|]; run; [|discriminate].
  destruct (m !! path) as [data|]; [|discriminate].
  destruct (negb (Z.of_nat (length data) =? w * h * 2) && negb force);
    [discriminate|].
  destruct (bool_decide _ && negb overwrite); [discriminate|].
  destruct (zlib_level_ok lvl); discriminate.
Qed.

Lemma compress_one_log (path : string) (lvl : Z) (force overwrite : bool)
    (s : World) :
  exists evs,
    log (snd (compress_one unicode_span zlib_compress path lvl force overwrite s)) = log s ++ evs.
Proof.
  destruct s as [m lg]. unfold compress_one.
  destruct (size_from_name unicode_span path) as [[w h]|]; run; [|eexists; reflexivity].
  destruct (m !! path) as [data|]; [|eexists; reflexivity].
  destruct (negb (Z.of_nat (length data) =? w * h * 2) && negb force);
    [simpl; rewrite <- app_assoc; eexists; reflexivity|].
  destruct (bool_decide _ && negb overwrite);
    [simpl; rewrite <- !app_assoc; eexists; reflexivity|].
  destruct (zlib_level_ok lvl); simpl; rewrite <- ?app_assoc; eexists; reflexivity.
Qed.

End CompressOne.

Section BatchLoop.
Import PackAssets Batch.
Variable unicode_span : list ascii -> list Z * list ascii.
Variable zlib_compress : list Z -> Z -> list Z.
Variable discover : bool -> gmap string (list Z) -> list string.
Variable args : Args.

Local Abbreviation loop_body := (PackAssets.loop_body unicode_span zlib_compress args).

Lemma M_bind_val {A B : Type} (m : M A) (f : A -> M B) (s : World) (a : A)
    (s' : World) :
  m s = (Val a, s') -> (m ≫= f) s = f a s'.
Proof. intros Hm. unfold mbind, M_bind. rewrite Hm. reflexivity. Qed.

Lemma loop_body_file_result (ok : nat) (f : string) (s : World) :
  loop_body ok f s
  = (Val (if fst (file_result unicode_span zlib_compress args f s) then (ok + 1)%nat else ok),
     snd (file_result unicode_span zlib_compress args f s)).
Proof.
  unfold PackAssets.loop_body, file_result, try_except.
  cbv [mbind M_bind mret M_ret print emit].
  pose proof (compress_one_no_exit unicode_span zlib_compress f (level args) (force args)
                (overwrite args) s) as Hno.
  destruct (compress_one unicode_span zlib_compress f (level args) (force args) (overwrite args) s)
    as [[b | e | c] s1]; simpl.
  - reflexivity.
  - reflexivity.
  - exfalso. exact (Hno s1 c eq_refl).
Qed.

Lemma loop_files (files : list string) (ok : nat) (s : World) :
  for_in files loop_body ok s
  = (Val (ok + count_true (batch_results unicode_span zlib_compress args files s))%nat,
     batch_world unicode_span zlib_compress args files s).
Proof.
  revert ok s. induction files as [|f files IH]; intros ok s; simpl.
  - rewrite Nat.add_0_r. reflexivity.
  - unfold mbind at 1. unfold M_bind.
    rewrite loop_body_file_result.
    destruct (file_result unicode_span zlib_compress args f s) as [b s1]. simpl.
    rewrite IH. destruct b; simpl; f_equal; f_equal; lia.
Qed.

Lemma count_true_all (bs : list bool) :
  (count_true bs =? length bs)%nat = forallb (fun b : bool => b) bs.
Proof.
  assert (Hle : forall l, (count_true l <= length l)%nat).
  { induction l as [|b l IH]; simpl; [lia | destruct b; lia]. }
  induction bs as [|b bs IH]; [reflexivity|]. simpl.
  destruct b; simpl; [exact IH|].
  apply Nat.eqb_neq. specialize (Hle bs). lia.
Qed.

Lemma batch_results_length (files : list string) (s : World) :
  length (batch_results unicode_span zlib_compress args files s) = length files.
Proof.
  revert s. induction files as [|f files IH]; intros s; simpl; [reflexivity|].
  destruct (file_result unicode_span zlib_compress args f s) as [b s1]. simpl. f_equal. apply IH.
Qed.

Lemma file_result_log (f : string) (s : World) :
  exists evs, log (snd (file_result unicode_span zlib_compress args f s)) = log s ++ evs.
Proof.
  unfold file_result.
  destruct (compress_one_log unicode_span zlib_compress f (level args) (force args)
              (overwrite args) s) as [evs Hevs].
  destruct (compress_one unicode_span zlib_compress f (level args) (force args) (overwrite args) s)
    as [[b | e | c] s1]; simpl in *.
  - exists evs. exact Hevs.
  - exists (evs ++ [EPrint (MsgFail (path_name f))]).
    rewrite Hevs, <- app_assoc. reflexivity.
  - exists evs. exact Hevs.
Qed.

Lemma batch_world_log (files : list string) (s : World) :
  exists evs, log (batch_world unicode_span zlib_compress args files s) = log s ++ evs.
Proof.
  revert s. induction files as [|f files IH]; intros s; simpl.
  - exists []. rewrite app_nil_r. reflexivity.
  - destruct (IH (snd (file_result unicode_span zlib_compress args f s))) as [evs Hevs].
    destruct (file_result_log f s) as [evs0 Hevs0].
    exists (evs0 ++ evs). rewrite Hevs, Hevs0, <- app_assoc. reflexivity.
Qed.

(** A file whose name has no dimensions is not a success, whatever the
    world it is met in. *)
Lemma unnamed_not_succeeded (files : list string) (s : World) :
  (exists f, In f files /\ size_from_name unicode_span f = None) ->
  every_file_succeeded unicode_span zlib_compress args files s = false.
Proof.
  unfold every_file_succeeded.
  revert s. induction files as [|f files IH]; intros s (f0 & Hin & Hname).
  - destruct Hin.
  - simpl. destruct (file_result unicode_span zlib_compress args f s) as [b s1] eqn:Hres. simpl.
    destruct Hin as [-> | Hin].
    + unfold file_result in Hres.
      rewrite compress_one_name_mismatch in Hres by exact Hname.
      injection Hres as <- _. reflexivity.
    + rewrite (IH s1) by (exists f0; split; assumption). apply andb_false_r.
Qed.

Lemma main_bad_level (s : World) :
  level args < 0 \/ 9 < level args ->
  main unicode_span zlib_compress discover args s
  = (Exit 2, mkWorld (fs s) (log s ++ [EPrint MsgBadLevel])).
Proof.
  intros Hbad. unfold main.
  assert (Hchk : (level args <? 0) || (level args >? 9) = true).
  { apply orb_true_iff. destruct Hbad; [left; apply Z.ltb_lt | right; apply Z.gtb_lt];
      lia. }
  rewrite Hchk. reflexivity.
Qed.

Lemma main_in_range (s : World) :
  0 <= level args <= 9 ->
  main unicode_span zlib_compress discover args s
  = match discover (recursive args) (fs s) with
    | [] => (Exit 1, mkWorld (fs s)
                       (log s ++ [EGlob (recursive args); EPrint MsgNoFiles]))
    | _ :: _ =>
        let files := discover (recursive args) (fs s) in
        let s1 := batch_world unicode_span zlib_compress args files (after_glob args s) in
        let n := count_true (batch_results unicode_span zlib_compress args files (after_glob args s)) in
        (Exit (if (n =? length files)%nat then 0 else 1),
         mkWorld (fs s1) (log s1 ++ [EPrint (MsgDone n (length files))]))
    end.
Proof.
  intros Hlvl. unfold main.
  assert (Hchk : (level args <? 0) || (level args >? 9) = false).
  { apply orb_false_iff. split; [apply Z.ltb_ge | rewrite Z.gtb_ltb; apply Z.ltb_ge]; lia. }
  rewrite Hchk.
  rewrite (M_bind_val _ _ s (discover (recursive args) (fs s)) (after_glob args s))
    by reflexivity.
  destruct (discover (recursive args) (fs s)) as [|f files] eqn:Hfiles.
  - unfold after_glob. cbv [print emit sys_exit mbind M_bind]. simpl.
    rewrite <- app_assoc. reflexivity.
  - rewrite (M_bind_val _ _ _ _ _ (loop_files (f :: files) 0 (after_glob args s))).
    reflexivity.
Qed.

End BatchLoop.

(** C7. With a level below 0 or above 9, [main] prints the level message
    and exits with status 2 with the files untouched and nothing else
    logged: no discovery, no read, no existence test, no write.  With a
    level in 0..9 the check passes: discovery is the first thing [main]
    does, and it exits with status 0 or 1. *)
Theorem level_check_fails_fast (unicode_span : list ascii -> list Z * list ascii)
    (zlib_compress : list Z -> Z -> list Z)
    (discover : bool -> gmap string (list Z) -> list string)
    (args : PackAssets.Args) (s : PackAssets.World) :
  ((PackAssets.level args < 0 \/ 9 < PackAssets.level args) ->
     PackAssets.main unicode_span zlib_compress discover args s
     = (PackAssets.Exit 2,
        PackAssets.mkWorld (PackAssets.fs s)
          (PackAssets.log s ++ [PackAssets.EPrint PackAssets.MsgBadLevel])))
  /\ (0 <= PackAssets.level args <= 9 ->
      exists code s' evs,
        PackAssets.main unicode_span zlib_compress discover args s = (PackAssets.Exit code, s')
        /\ (code = 0 \/ code = 1)
        /\ PackAssets.log s'
           = PackAssets.log s
             ++ PackAssets.EGlob (PackAssets.recursive args) :: evs).
Proof.
  split; [apply main_bad_level|].
  intros Hlvl. rewrite main_in_range by exact Hlvl.
  destruct (discover (PackAssets.recursive args) (PackAssets.fs s)) as [|f files].
  - exists 1, (PackAssets.mkWorld (PackAssets.fs s)
       (PackAssets.log s ++ [PackAssets.EGlob (PackAssets.recursive args);
                             PackAssets.EPrint PackAssets.MsgNoFiles])),
      [PackAssets.EPrint PackAssets.MsgNoFiles].
    split; [reflexivity|]. split; [right; reflexivity | reflexivity].
  - cbv zeta.
    destruct (batch_world_log unicode_span zlib_compress args (f :: files) (Batch.after_glob args s))
      as [evs Hevs].
    eexists _, _, (evs ++ [_]). split; [reflexivity|]. split.
    + destruct (_ =? _)%nat; [left | right]; reflexivity.
    + cbn [PackAssets.log]. rewrite Hevs. unfold Batch.after_glob. cbn [PackAssets.log].
      rewrite <- !app_assoc. reflexivity.
Qed.

Lemma level_check_fails_fast_witness :
  PackAssets.main Batch.ascii_only Batch.stored (Batch.found ["foo_4x4_rgb565_be.raw"%string])
    (PackAssets.mkArgs 10 false false false) Batch.short_file
  = (PackAssets.Exit 2,
     PackAssets.mkWorld (PackAssets.fs Batch.short_file)
       [PackAssets.EPrint PackAssets.MsgBadLevel])
  /\ exists code s' evs,
       PackAssets.main Batch.ascii_only Batch.stored (Batch.found ["foo_4x4_rgb565_be.raw"%string])
         (Batch.args9 false false) Batch.short_file = (PackAssets.Exit code, s')
       /\ (code = 0 \/ code = 1)
       /\ PackAssets.log s' = [] ++ PackAssets.EGlob false :: evs.
Proof.
  split.
  - apply (level_check_fails_fast Batch.ascii_only Batch.stored
             (Batch.found ["foo_4x4_rgb565_be.raw"%string])
             (PackAssets.mkArgs 10 false false false) Batch.short_file).
    right. simpl. lia.
  - apply (level_check_fails_fast Batch.ascii_only Batch.stored
             (Batch.found ["foo_4x4_rgb565_be.raw"%string])
             (Batch.args9 false false) Batch.short_file).
    simpl. lia.
Defined.

(** C8, amended. For a raw file whose name ends in _<W>x<H>_rgb565_be.raw
    and whose length differs from W * H * 2, [compress_one] (at a level
    0..9, as [main] calls it) without the force flag reads the file,
    reports the size error, returns False and writes nothing; with the
    force flag the size check is waived, and the file is compressed to
    <name>.zlib unless that output already exists and overwrite is not
    set, in which case it is reported as already existing and left as
    it is. *)
Theorem size_mismatch_rejected_unless_forced (unicode_span : list ascii -> list Z * list ascii)
    (zlib_compress : list Z -> Z -> list Z)
    (path : string) (w h lvl : Z) (data : list Z) (overwrite : bool)
    (s : PackAssets.World) :
  PackAssets.size_from_name unicode_span path = Some (w, h) ->
  PackAssets.fs s !! path = Some data ->
  Z.of_nat (length data) <> w * h * 2 ->
  0 <= lvl <= 9 ->
  let out := (path +:+ ".zlib")%string in
  PackAssets.compress_one unicode_span zlib_compress path lvl false overwrite s
  = (PackAssets.Val false,
     PackAssets.mkWorld (PackAssets.fs s)
       (PackAssets.log s
        ++ [PackAssets.ERead path;
            PackAssets.EPrint
              (PackAssets.MsgSizeError (PackAssets.path_name path)
                 (Z.of_nat (length data)) (w * h * 2) w h)]))
  /\ PackAssets.compress_one unicode_span zlib_compress path lvl true overwrite s
     = if bool_decide (is_Some (PackAssets.fs s !! out)) && negb overwrite then
         (PackAssets.Val true,
          PackAssets.mkWorld (PackAssets.fs s)
            (PackAssets.log s
             ++ [PackAssets.ERead path; PackAssets.EExists out;
                 PackAssets.EPrint (PackAssets.MsgSkipExists (PackAssets.path_name out))]))
       else
         (PackAssets.Val true,
          PackAssets.mkWorld (<[out := zlib_compress data lvl]> (PackAssets.fs s))
            (PackAssets.log s
             ++ [PackAssets.ERead path; PackAssets.EExists out; PackAssets.EWrite out;
                 PackAssets.EPrint
                   (PackAssets.MsgOk (PackAssets.path_name path) (PackAssets.path_name out)
                      (length data) (length (zlib_compress data lvl)))])).
Proof.
  intros Hname Hdata Hlen Hlvl out. split.
  - apply compress_one_size_mismatch; assumption.
  - apply compress_one_checked with (w := w) (h := h); try assumption.
    + right. reflexivity.
    + unfold PackAssets.zlib_level_ok. apply andb_true_iff.
      split; apply Z.leb_le; lia.
Qed.

Lemma size_mismatch_rejected_unless_forced_witness :
  PackAssets.compress_one Batch.ascii_only Batch.stored "foo_4x4_rgb565_be.raw" 9 false false
    Batch.short_file
  = (PackAssets.Val false,
     PackAssets.mkWorld (PackAssets.fs Batch.short_file)
       [PackAssets.ERead "foo_4x4_rgb565_be.raw";
        PackAssets.EPrint (PackAssets.MsgSizeError "foo_4x4_rgb565_be.raw" 31 32 4 4)]).
Proof.
  apply (size_mismatch_rejected_unless_forced Batch.ascii_only Batch.stored "foo_4x4_rgb565_be.raw"
           4 4 9 (repeat 7 31) false Batch.short_file).
  - reflexivity.
  - reflexivity.
  - simpl. lia.
  - lia.
Defined.

(** C8 as stated fails when the output is already there: the 31-byte
    file foo_4x4_rgb565_be.raw with the force flag and without overwrite
    is not compressed, the existing foo_4x4_rgb565_be.raw.zlib stays. *)
Lemma forced_but_already_packed :
  PackAssets.size_from_name Batch.ascii_only "foo_4x4_rgb565_be.raw" = Some (4, 4)
  /\ PackAssets.fs Batch.short_file_packed !! "foo_4x4_rgb565_be.raw"%string
     = Some (repeat 7 31)
  /\ PackAssets.compress_one Batch.ascii_only Batch.stored "foo_4x4_rgb565_be.raw" 9 true false
       Batch.short_file_packed
     = (PackAssets.Val true,
        PackAssets.mkWorld (PackAssets.fs Batch.short_file_packed)
          [PackAssets.ERead "foo_4x4_rgb565_be.raw";
           PackAssets.EExists "foo_4x4_rgb565_be.raw.zlib";
           PackAssets.EPrint (PackAssets.MsgSkipExists "foo_4x4_rgb565_be.raw.zlib")])
  /\ PackAssets.fs Batch.short_file_packed !! "foo_4x4_rgb565_be.raw.zlib"%string
     = Some [1; 2; 3].
Proof. repeat split; vm_compute; reflexivity. Qed.

(** C9, amended. For a batch at a level 0..9: a batch of no file exits
    with status 1; a batch of at least one file exits with status 0
    when [compress_one] returned True for every file and with status 1
    otherwise; a file whose name does not match the pattern is skipped
    with the skip message, without a read or a write, and
    [compress_one] returns False for it, so a batch that holds one exits
    with status 1; a file that can be read, that passes the size check
    (or has it waived by the force flag) and whose compressed output
    already exists, without the overwrite flag, is reported as already
    existing, left as it is and counted as a success. *)
Theorem batch_exit_counts_successes (unicode_span : list ascii -> list Z * list ascii)
    (zlib_compress : list Z -> Z -> list Z)
    (discover : bool -> gmap string (list Z) -> list string)
    (args : PackAssets.Args) (s : PackAssets.World) :
  0 <= PackAssets.level args <= 9 ->
  let files := discover (PackAssets.recursive args) (PackAssets.fs s) in
  (files = [] ->
   PackAssets.exit_status unicode_span zlib_compress discover args s = Some 1)
  /\ (files <> [] ->
      PackAssets.exit_status unicode_span zlib_compress discover args s
      = Some (if Batch.every_file_succeeded unicode_span zlib_compress args files
                   (Batch.after_glob args s)
              then 0 else 1))
  /\ ((exists f, In f files /\ PackAssets.size_from_name unicode_span f = None) ->
      PackAssets.exit_status unicode_span zlib_compress discover args s = Some 1)
  /\ (forall path s0,
        PackAssets.size_from_name unicode_span path = None ->
        PackAssets.compress_one unicode_span zlib_compress path (PackAssets.level args)
          (PackAssets.force args) (PackAssets.overwrite args) s0
        = (PackAssets.Val false,
           PackAssets.mkWorld (PackAssets.fs s0)
             (PackAssets.log s0
              ++ [PackAssets.EPrint (PackAssets.MsgSkipName (PackAssets.path_name path))])))
  /\ (forall path w h data s0,
        PackAssets.size_from_name unicode_span path = Some (w, h) ->
        PackAssets.fs s0 !! path = Some data ->
        Z.of_nat (length data) = w * h * 2 \/ PackAssets.force args = true ->
        is_Some (PackAssets.fs s0 !! (path +:+ ".zlib")%string) ->
        PackAssets.overwrite args = false ->
        Batch.file_result unicode_span zlib_compress args path s0
        = (true,
           PackAssets.mkWorld (PackAssets.fs s0)
             (PackAssets.log s0
              ++ [PackAssets.ERead path; PackAssets.EExists (path +:+ ".zlib")%string;
                  PackAssets.EPrint
                    (PackAssets.MsgSkipExists
                       (PackAssets.path_name (path +:+ ".zlib")%string))]))).
Proof.
  intros Hlvl files.
  assert (Hexit : files <> [] ->
                  PackAssets.exit_status unicode_span zlib_compress discover args s
                  = Some (if Batch.every_file_succeeded unicode_span zlib_compress args files
                               (Batch.after_glob args s) then 0 else 1)).
  { intros Hfiles. unfold PackAssets.exit_status. rewrite main_in_range by exact Hlvl.
    fold files. destruct files as [|f files'] eqn:Hf; [contradiction|].
    cbv zeta. unfold Batch.every_file_succeeded.
    rewrite <- count_true_all, batch_results_length. reflexivity. }
  split; [|split; [exact Hexit|split; [|split]]].
  - intros Hnone. unfold PackAssets.exit_status.
    rewrite main_in_range by exact Hlvl. fold files. rewrite Hnone. reflexivity.
  - intros Hunnamed. rewrite Hexit.
    + rewrite unnamed_not_succeeded by exact Hunnamed. reflexivity.
    + destruct Hunnamed as (f & Hin & _). intros Hnil. rewrite Hnil in Hin.
      destruct Hin.
  - intros path s0 Hname. apply compress_one_name_mismatch, Hname.
  - intros path w h data s0 Hname Hdata Hpass Hout Hover.
    unfold Batch.file_result.
    rewrite (compress_one_checked unicode_span zlib_compress path w h (PackAssets.level args) data
               (PackAssets.force args) (PackAssets.overwrite args) s0 Hname Hdata Hpass).
    + rewrite Hover, bool_decide_eq_true_2 by exact Hout. reflexivity.
    + unfold PackAssets.zlib_level_ok. apply andb_true_iff.
      split; apply Z.leb_le; lia.
Qed.

Lemma batch_exit_counts_successes_witness :
  0 <= PackAssets.level (Batch.args9 true false) <= 9
  /\ PackAssets.exit_status Batch.ascii_only Batch.stored
       (Batch.found ["foo_4x4_rgb565_be.raw"%string])
       (Batch.args9 true false) Batch.short_file_packed
     = Some 0
  /\ PackAssets.exit_status Batch.ascii_only Batch.stored (Batch.found [])
       (Batch.args9 true false) Batch.short_file_packed
     = Some 1.
Proof.
  assert (Hlvl : 0 <= PackAssets.level (Batch.args9 true false) <= 9)
    by (simpl; lia).
  split; [exact Hlvl|]. split.
  - destruct (batch_exit_counts_successes Batch.ascii_only Batch.stored
                (Batch.found ["foo_4x4_rgb565_be.raw"%string])
                (Batch.args9 true false) Batch.short_file_packed Hlvl)
      as (_ & Hsome & _).
    apply Hsome. discriminate.
  - destruct (batch_exit_counts_successes Batch.ascii_only Batch.stored (Batch.found [])
                (Batch.args9 true false) Batch.short_file_packed Hlvl)
      as (Hnone & _).
    apply Hnone. reflexivity.
Defined.

(** C9 as stated fails on a batch whose only file is notes.raw: the file
    is skipped for its name and the batch exits with status 1, as does a
    batch whose only file has a size error; a batch of no file at all
    exits with status 1 too. *)
Lemma unnamed_file_fails_batch :
  PackAssets.size_from_name Batch.ascii_only "notes.raw" = None
  /\ PackAssets.main Batch.ascii_only Batch.stored (Batch.found ["notes.raw"%string])
       (Batch.args9 false false) Batch.unnamed_file
     = (PackAssets.Exit 1,
        PackAssets.mkWorld (PackAssets.fs Batch.unnamed_file)
          [PackAssets.EGlob false;
           PackAssets.EPrint (PackAssets.MsgSkipName "notes.raw");
           PackAssets.EPrint (PackAssets.MsgDone 0 1)])
  /\ PackAssets.exit_status Batch.ascii_only Batch.stored (Batch.found ["foo_4x4_rgb565_be.raw"%string])
       (Batch.args9 false false) Batch.short_file
     = Some 1
  /\ PackAssets.exit_status Batch.ascii_only Batch.stored (Batch.found [])
       (Batch.args9 false false) Batch.unnamed_file
     = Some 1.
Proof. repeat split; vm_compute; reflexivity. Qed.

(** * Further properties of the scripts *)

Section CodecMore.
Import Struct MakeSpans ImageConverter.

(** A big-endian pair of bytes read back gives the value packed. *)
Lemma unpack_pack_H (v : Z) :
  0 <= v <= 65535 -> unpack_H [Z.shiftr v 8; Z.land v 255] = Ok v.
Proof.
  intros Hv. unfold unpack_H. f_equal.
  change 255 with (Z.ones 8). rewrite Z.land_ones by lia.
  rewrite lor_shiftl_low by (change (2 ^ 8) with 256; Z.div_mod_to_equations; lia).
  rewrite Z.shiftr_div_pow2 by lia. change (2 ^ 8) with 256.
  Z.div_mod_to_equations. lia.
Qed.

Lemma pack_H_negative (v : Z) : v < 0 -> pack_H v = StructError.
Proof.
  intros Hv. unfold pack_H, fits_H. destruct (Z.leb_spec 0 v); [lia | reflexivity].
Qed.

End CodecMore.

(** X1. For every 8-bit pixel, the two bytes of the codec read back as a
    big-endian 16-bit value (the [struct.unpack(">H", ...)] of line 52,
    which [main] applies to the key colour) give the RGB565 value
    (r >> 3) << 11 | (g >> 2) << 5 | b >> 3, and packing that value gives
    the same two bytes again. *)
Theorem codec_bytes_read_back (r g b : Z) :
  chan r -> chan g -> chan b ->
  exists bs,
    MakeSpans.rgb888_to_rgb565_be r g b = Ok bs
    /\ Struct.unpack_H bs = Ok (ImageConverter.rgb565 r g b)
    /\ Struct.pack_H (ImageConverter.rgb565 r g b) = Ok bs.
Proof.
  intros Hr Hg Hb. eexists. split; [apply rgb888_to_rgb565_be_ok; assumption|].
  split.
  - apply unpack_pack_H, rgb565_range; assumption.
  - apply pack_H_fits, rgb565_range; assumption.
Qed.

Lemma codec_bytes_read_back_witness :
  exists bs,
    MakeSpans.rgb888_to_rgb565_be 255 0 0 = Ok bs
    /\ Struct.unpack_H bs = Ok 0xF800
    /\ Struct.pack_H 0xF800 = Ok bs.
Proof.
  apply (codec_bytes_read_back 255 0 0); unfold chan; lia.
Defined.

Lemma codec_same_iff (r g b r' g' b' : Z) :
  chan r -> chan g -> chan b -> chan r' -> chan g' -> chan b' ->
  (MakeSpans.rgb888_to_rgb565_be r g b = MakeSpans.rgb888_to_rgb565_be r' g' b'
   <-> Z.shiftr r 3 = Z.shiftr r' 3 /\ Z.shiftr g 2 = Z.shiftr g' 2
       /\ Z.shiftr b 3 = Z.shiftr b' 3).
Proof.
  intros Hr Hg Hb Hr' Hg' Hb'.
  rewrite !rgb888_to_rgb565_be_ok by assumption.
  pose proof (rgb565_sum r g b Hr Hg Hb) as Hs.
  pose proof (rgb565_sum r' g' b' Hr' Hg' Hb') as Hs'.
  pose proof (rgb565_range r g b Hr Hg Hb) as Hv.
  pose proof (rgb565_range r' g' b' Hr' Hg' Hb') as Hv'.
  assert (Hbytes : [Z.shiftr (ImageConverter.rgb565 r g b) 8;
                    Z.land (ImageConverter.rgb565 r g b) 255]
                   = [Z.shiftr (ImageConverter.rgb565 r' g' b') 8;
                      Z.land (ImageConverter.rgb565 r' g' b') 255]
                   <-> ImageConverter.rgb565 r g b = ImageConverter.rgb565 r' g' b').
  { split; [|intros ->; reflexivity]. intros Heq.
    pose proof (unpack_pack_H _ Hv) as H1. pose proof (unpack_pack_H _ Hv') as H2.
    rewrite Heq in H1. congruence. }
  split.
  - intros Heq. assert (Heq' := f_equal (fun o => match o with Ok l => l | _ => [] end) Heq).
    cbv beta iota in Heq'. apply Hbytes in Heq'. clear Heq. rename Heq' into Heq.
    rewrite Hs, Hs' in Heq. rewrite !Z.shiftr_div_pow2 by lia.
    change (2 ^ 3) with 8. change (2 ^ 2) with 4.
    unfold chan in *. clear Hs Hs' Hv Hv' Hbytes.
    Z.div_mod_to_equations. lia.
  - intros (H1 & H2 & H3). f_equal. apply Hbytes.
    rewrite !Z.shiftr_div_pow2 in H1, H2, H3 by lia.
    change (2 ^ 3) with 8 in *. change (2 ^ 2) with 4 in *.
    rewrite Hs, Hs', H1, H2, H3. reflexivity.
Qed.

(** X2. Two 8-bit pixels get the same two bytes exactly when they agree
    on the top five bits of red, the top six bits of green and the top
    five bits of blue: the codec drops the low 3, 2 and 3 bits and
    nothing else. *)
Theorem codec_keeps_high_bits (r g b r' g' b' : Z) :
  chan r -> chan g -> chan b -> chan r' -> chan g' -> chan b' ->
  (MakeSpans.rgb888_to_rgb565_be r g b = MakeSpans.rgb888_to_rgb565_be r' g' b'
   <-> Z.shiftr r 3 = Z.shiftr r' 3 /\ Z.shiftr g 2 = Z.shiftr g' 2
       /\ Z.shiftr b 3 = Z.shiftr b' 3).
Proof. apply codec_same_iff. Qed.

Lemma codec_keeps_high_bits_witness :
  MakeSpans.rgb888_to_rgb565_be 0x8B 0xE3 0x08
  = MakeSpans.rgb888_to_rgb565_be 0x88 0xE0 0x0F
  <-> Z.shiftr 0x8B 3 = Z.shiftr 0x88 3 /\ Z.shiftr 0xE3 2 = Z.shiftr 0xE0 2
      /\ Z.shiftr 0x08 3 = Z.shiftr 0x0F 3.
Proof.
  apply (codec_keeps_high_bits 0x8B 0xE3 0x08 0x88 0xE0 0x0F); unfold chan; lia.
Defined.

(** X3. A pixel that is not transparent (alpha not zero, RGB not the key
    colour) but has the key colour's top bits is kept in a run with the
    very bytes 8F 01 that the header stores as the key colour: the
    RGB565 key of the header does not tell transparent pixels from
    visible ones. *)
Theorem visible_pixel_may_encode_as_key (img : Image RGBA) (r g b a : Z) :
  chan r -> chan g -> chan b ->
  a <> 0 -> (r, g, b) <> MakeSpans.LIME_KEY ->
  Z.shiftr r 3 = Z.shiftr 0x8B 3 -> Z.shiftr g 2 = Z.shiftr 0xE3 2 ->
  Z.shiftr b 3 = Z.shiftr 0x08 3 ->
  MakeSpans.is_transparent (snd (MakeSpans.pick_key_color img)) (r, g, b, a) = false
  /\ MakeSpans.rgb888_to_rgb565_be r g b = fst (MakeSpans.pick_key_color img)
  /\ MakeSpans.rgb888_to_rgb565_be r g b = Ok [0x8F; 0x01].
Proof.
  intros Hr Hg Hb Ha Hkey H1 H2 H3.
  assert (Hsame : MakeSpans.rgb888_to_rgb565_be r g b
                  = MakeSpans.rgb888_to_rgb565_be 0x8B 0xE3 0x08).
  { apply codec_same_iff; try assumption; try (unfold chan; lia). }
  split; [|split; [exact Hsame | rewrite Hsame; reflexivity]].
  change (snd (MakeSpans.pick_key_color img)) with MakeSpans.LIME_KEY.
  destruct (MakeSpans.is_transparent MakeSpans.LIME_KEY (r, g, b, a)) eqn:Ht;
    [|reflexivity].
  apply is_transparent_iff in Ht. destruct Ht; contradiction.
Qed.

Lemma visible_pixel_may_encode_as_key_witness :
  MakeSpans.is_transparent (snd (MakeSpans.pick_key_color Examples.scenario_2x2))
    (0x88, 0xE0, 0x0F, 255) = false
  /\ MakeSpans.rgb888_to_rgb565_be 0x88 0xE0 0x0F
     = fst (MakeSpans.pick_key_color Examples.scenario_2x2)
  /\ MakeSpans.rgb888_to_rgb565_be 0x88 0xE0 0x0F = Ok [0x8F; 0x01].
Proof.
  apply (visible_pixel_may_encode_as_key Examples.scenario_2x2 0x88 0xE0 0x0F 255);
    try (unfold chan; lia); try reflexivity; try discriminate.
Defined.

Section DenseLayout.
Import Struct MakeSpans ImageConverter Dense.

(** In a concatenation of blocks of [k] elements, element [j] of block
    [i] is at index [k * i + j]. *)
Lemma flat_map_lookup_block {X : Type} (g : X -> list Z) (k : nat) (xs : list X)
    (i j : nat) (x : X) :
  (forall x', length (g x') = k) ->
  xs !! i = Some x -> (j < k)%nat ->
  flat_map g xs !! (k * i + j)%nat = g x !! j.
Proof.
  intros Hk. revert i. induction xs as [|x0 xs IH]; intros i Hi Hj.
  - rewrite lookup_nil in Hi. discriminate.
  - simpl. destruct i as [|i].
    + simpl in Hi. injection Hi as ->.
      rewrite Nat.mul_0_r, Nat.add_0_l. apply lookup_app_l. rewrite Hk. exact Hj.
    + simpl in Hi. rewrite lookup_app_r by (rewrite Hk; lia).
      rewrite Hk. replace (k * S i + j - k)%nat with (k * i + j)%nat by lia.
      apply IH; assumption.
Qed.

Lemma dense_lookup (img : Image RGB) (x y j : nat) :
  (x < fst (size img))%nat -> (y < snd (size img))%nat -> (j < 2)%nat ->
  dense img !! (2 * (y * fst (size img) + x) + j)%nat
  = pixel_bytes (load img x y) !! j.
Proof.
  unfold dense. destruct (size img) as [w h]. simpl fst. simpl snd.
  intros Hx Hy Hj.
  replace (2 * (y * w + x) + j)%nat with ((2 * w) * y + (2 * x + j))%nat by lia.
  rewrite (flat_map_lookup_block _ (2 * w) (range 0 h) y (2 * x + j) y).
  - apply (flat_map_lookup_block (fun x' => pixel_bytes (load img x' y)) 2 (range 0 w) x j x).
    + intros x'. destruct (load img x' y) as [[r g] b]. reflexivity.
    + apply lookup_seq. lia.
    + exact Hj.
  - intros y'. rewrite (flat_map_length_const _ 2).
    + unfold range. rewrite length_seq. reflexivity.
    + intros x'. destruct (load img x' y') as [[r g] b]. reflexivity.
  - apply lookup_seq. lia.
  - lia.
Qed.

End DenseLayout.

(** X4. In the dense buffer of an image with 8-bit channels, the pixel at
    column x of row y is at byte offset 2 * (y * w + x): the high byte of
    its RGB565 value there, the low byte next to it, in the buffer of
    make_spans.py and in that of image_converter.py alike. *)
Theorem dense_pixel_offset (img : Image RGBA) (x y : nat) :
  image_ok rgba_ok img ->
  (x < fst (size img))%nat -> (y < snd (size img))%nat ->
  let '(r, g, b, _) := load img x y in
  let v := ImageConverter.rgb565 r g b in
  let off := (2 * (y * fst (size img) + x))%nat in
  exists bs,
    MakeSpans.full_frame img = Ok bs
    /\ ImageConverter.to_rgb565_be_bytes (ImageConverter.ModeRGBA img) = Ok bs
    /\ bs !! off = Some (Z.shiftr v 8)
    /\ bs !! (off + 1)%nat = Some (Z.land v 255).
Proof.
  intros Hok Hx Hy.
  pose proof (dense_lookup (convert_RGB img) x y 0 Hx Hy ltac:(lia)) as H0.
  pose proof (dense_lookup (convert_RGB img) x y 1 Hx Hy ltac:(lia)) as H1.
  simpl in H0, H1. rewrite Nat.add_0_r in H0.
  destruct (load img x y) as [[[r g] b] a]. intros v off.
  exists (Dense.dense (convert_RGB img)).
  split; [apply full_frame_dense, Hok|].
  split; [apply (to_rgb565_be_bytes_dense (convert_RGB img)), image_ok_convert_RGB, Hok|].
  split; [exact H0 | exact H1].
Qed.

Lemma dense_pixel_offset_witness :
  exists bs,
    MakeSpans.full_frame Examples.scenario_2x2 = Ok bs
    /\ ImageConverter.to_rgb565_be_bytes (ImageConverter.ModeRGBA Examples.scenario_2x2)
       = Ok bs
    /\ bs !! 6%nat = Some 0x07
    /\ bs !! 7%nat = Some 0xE0.
Proof.
  apply (dense_pixel_offset Examples.scenario_2x2 1 1).
  - intros x y Hx Hy. simpl in Hx, Hy.
    destruct x as [|[|x]]; [| |lia]; (destruct y as [|[|y]]; [| |lia]);
      vm_compute; intuition discriminate.
  - simpl. lia.
  - simpl. lia.
Defined.

Section ScannerRefinement.
Import MakeSpans Layout.
Variable pixels : nat -> nat -> RGBA.
Variable key_rgb : RGB.
Variable w : nat.
Variable y : nat.
Local Open Scope nat_scope.

Local Abbreviation flags x := (flags_from pixels key_rgb w y x).

Lemma flags_from_step (x : nat) :
  x < w ->
  flags x = is_transparent key_rgb (pixels x y) :: flags (S x).
Proof.
  intros Hx. unfold flags_from.
  replace (w - x) with (S (w - S x)) by lia. reflexivity.
Qed.

Lemma flags_from_end (x : nat) : w <= x -> flags x = [].
Proof.
  intros Hx. unfold flags_from. replace (w - x) with 0 by lia. reflexivity.
Qed.

(** The inner loop closes the run that is open at [x]. *)
Lemma run_end_spans (fuel x s : nat) :
  x <= w -> w - x < fuel ->
  exists x', run_end pixels key_rgb w y fuel x = Ok x'
    /\ x <= x' <= w
    /\ spans (flags x) x (Some s) = (s, x' - s) :: spans (flags x') x' None.
Proof.
  revert x. induction fuel as [|fuel IH]; intros x Hx Hfuel; [lia|].
  cbn [run_end]. destruct (Nat.ltb_spec x w) as [Hlt | Hge].
  - rewrite (flags_from_step x Hlt).
    destruct (is_transparent key_rgb (pixels x y)) eqn:Ht.
    + exists x. split; [reflexivity|]. split; [lia|].
      rewrite (flags_from_step x Hlt), Ht. reflexivity.
    + destruct (IH (x + 1)) as (x' & Hrun & Hb & Hsp); [lia | lia |].
      exists x'. split; [exact Hrun|]. split; [lia|].
      cbn [spans]. replace (S x) with (x + 1) by lia. exact Hsp.
  - exists x. split; [reflexivity|]. split; [lia|].
    rewrite (flags_from_end x Hge). reflexivity.
Qed.

(** The two nested loops compute [spans]. *)
Lemma scan_row_spans (fuel x : nat) (acc : list (nat * nat)) :
  x <= w -> w - x < fuel ->
  scan_row pixels key_rgb w y fuel x acc = Ok (acc ++ spans (flags x) x None).
Proof.
  revert x acc. induction fuel as [|fuel IH]; intros x acc Hx Hfuel; [lia|].
  cbn [scan_row]. destruct (Nat.ltb_spec x w) as [Hlt | Hge].
  - destruct (is_transparent key_rgb (pixels x y)) eqn:Ht.
    + rewrite IH by lia. rewrite (flags_from_step x Hlt), Ht.
      cbn [spans close]. replace (x + 1) with (S x) by lia. reflexivity.
    + destruct (run_end_spans (S (w - x)) x x) as (x' & Hrun & Hb & Hsp); [lia | lia |].
      rewrite Hrun, bind_Ok.
      assert (Hlt' : x < x').
      { destruct (Nat.eq_dec x' x) as [-> | Hne]; [|lia].
        rewrite (flags_from_step x Hlt), Ht in Hsp. cbn [spans] in Hsp.
        exfalso. clear -Hsp.
        assert (Hl := f_equal (@length _) Hsp). simpl in Hl.
        revert Hl. generalize (spans (flags (S x)) (S x) (Some x)). intros l Hl.
        lia. }
      rewrite IH by lia. rewrite <- app_assoc. f_equal. f_equal.
      rewrite (flags_from_step x Hlt), Ht. cbn [spans].
      rewrite (flags_from_step x Hlt), Ht in Hsp. cbn [spans] in Hsp.
      rewrite Hsp. reflexivity.
  - rewrite (flags_from_end x Hge). cbn [spans close]. rewrite app_nil_r. reflexivity.
Qed.

End ScannerRefinement.
Section SpansFacts.
Import MakeSpans Layout.
Local Open Scope nat_scope.

(** The lengths of the runs add up to the number of opaque pixels. *)
Lemma spans_sum_len (ts : list bool) :
  forall x start, open_ok start x ->
    sum_len (spans ts x start) = count_opaque ts + open_len start x.
Proof.
  induction ts as [|t ts IH]; intros x start Hs.
  - destruct start; simpl in *; lia.
  - destruct t; cbn [spans].
    + unfold sum_len in *. rewrite fold_right_app.
      rewrite IH by exact I. unfold count_opaque. simpl.
      destruct start; simpl in *; lia.
    + rewrite IH by (destruct start; simpl in *; lia).
      unfold count_opaque. simpl.
      destruct start as [s|]; simpl in *; lia.
Qed.

(** Runs are separated by transparent pixels, so a row of [n] pixels has
    at most [(n + 1) / 2] of them. *)
Lemma spans_count (ts : list bool) :
  forall x start,
    2 * length (spans ts x start)
    <= length ts + match start with Some _ => 2 | None => 1 end.
Proof.
  induction ts as [|t ts IH]; intros x start.
  - destruct start; simpl; lia.
  - destruct t; cbn [spans].
    + rewrite length_app. specialize (IH (S x) None).
      destruct start; simpl in *; lia.
    + specialize (IH (S x) (Some (match start with Some s => s | None => x end))).
      destruct start; simpl in *; lia.
Qed.

(** A row without a transparent pixel is one run. *)
Lemma spans_all_opaque (n : nat) :
  forall x start, open_ok start x ->
    spans (repeat false n) x start
    = match start, n with
      | None, O => []
      | None, S _ => [(x, n)]
      | Some s, _ => [(s, x + n - s)]
      end.
Proof.
  induction n as [|n IH]; intros x start Hs.
  - destruct start; simpl in *; [|reflexivity]. do 2 f_equal. lia.
  - cbn [repeat spans]. rewrite IH by (destruct start; simpl in *; lia).
    destruct start; simpl in *; do 2 f_equal; lia.
Qed.

End SpansFacts.

Section SpriteLayout.
Import Struct MakeSpans Layout.

Lemma row_runs_of_spans (pixels : nat -> nat -> RGBA) (key_rgb : RGB) (w y : nat) :
  row_runs_of pixels key_rgb w y
  = Ok (spans (flags_from pixels key_rgb w y 0) 0 None).
Proof.
  unfold row_runs_of. rewrite scan_row_spans by lia. reflexivity.
Qed.

Lemma spans_fit (pixels : nat -> nat -> RGBA) (key_rgb : RGB) (w y : nat) :
  Z.of_nat w <= 65535 ->
  Z.of_nat (length (spans (flags_from pixels key_rgb w y 0) 0 None)) <= 65535
  /\ Forall (fun r => (fst r + snd r <= w)%nat)
            (spans (flags_from pixels key_rgb w y 0) 0 None).
Proof.
  intros Hw.
  destruct (row_runs_fit pixels key_rgb w y Hw) as (runs & Hruns & Hcount & Hfit).
  rewrite row_runs_of_spans in Hruns. injection Hruns as <-.
  split; assumption.
Qed.

(** A loop that appends [g x] to the buffer and adds [c x] to the count. *)
Lemma for_in_append_count {X : Type} (xs : list X)
    (body : list Z * nat -> X -> result (list Z * nat))
    (g : X -> list Z) (c : X -> nat) :
  (forall rle n x, In x xs -> body (rle, n) x = Ok (rle ++ g x, (n + c x)%nat)) ->
  forall rle n,
    for_in xs body (rle, n)
    = Ok (rle ++ flat_map g xs, (n + fold_right (fun x k => (c x + k)%nat) 0%nat xs)%nat).
Proof.
  induction xs as [|x xs IH]; intros Hbody rle n; simpl.
  - rewrite app_nil_r, Nat.add_0_r. reflexivity.
  - rewrite Hbody by (left; reflexivity). rewrite bind_Ok.
    rewrite IH by (intros; apply Hbody; right; assumption).
    rewrite <- app_assoc. do 2 f_equal. lia.
Qed.

Lemma run_payload (pixels : nat -> nat -> RGBA) (w y sx ln : nat) (rle : list Z) :
  (forall x, (x < w)%nat -> rgba_ok (pixels x y)) ->
  (sx + ln <= w)%nat ->
  for_in (range sx ln) (fun rle px =>
      let '(r, g, b, a) := pixels px y in
      bs ← rgb888_to_rgb565_be r g b;
      mret (rle ++ bs)) rle
  = Ok (rle ++ flat_map (fun x => Dense.pixel_bytes (rgb_of (pixels x y))) (range sx ln)).
Proof.
  intros Hpx Hfit. apply for_in_append. intros acc x Hx. apply in_seq in Hx.
  assert (Hlt : (x < w)%nat) by lia. specialize (Hpx x Hlt).
  destruct (pixels x y) as [[[r g] b] a]. destruct Hpx as (Hr & Hg & Hb & _).
  rewrite rgb888_to_rgb565_be_ok by assumption. reflexivity.
Qed.

Lemma emit_row_bytes (pixels : nat -> nat -> RGBA) (w y : nat)
    (runs : list (nat * nat)) (rle : list Z) (total : nat) :
  (forall x, (x < w)%nat -> rgba_ok (pixels x y)) ->
  Z.of_nat w <= 65535 ->
  Forall (fun r => (fst r + snd r <= w)%nat) runs ->
  Z.of_nat (length runs) <= 65535 ->
  emit_row pixels y runs (rle, total)
  = Ok (rle ++ row_bytes pixels y runs, (total + sum_len runs)%nat).
Proof.
  intros Hpx Hw Hruns Hcount. unfold emit_row, row_bytes.
  rewrite pack_H_fits by lia. rewrite bind_Ok.
  rewrite (for_in_append_count runs _ (run_bytes pixels y) snd).
  - rewrite <- app_assoc. reflexivity.
  - intros rle' n [sx ln] Hin.
    rewrite Forall_forall in Hruns.
    pose proof (Hruns _ (proj2 (list_elem_of_In _ _) Hin)) as Hr. simpl in Hr.
    rewrite pack_HH_fits by lia. rewrite bind_Ok.
    rewrite (run_payload pixels w y sx ln) by assumption. rewrite bind_Ok.
    unfold run_bytes, u16. simpl fst. simpl snd.
    rewrite <- !app_assoc. reflexivity.
Qed.

Lemma sprite_rle_layout (img : Image RGBA) :
  Z.of_nat (fst (size img)) <= 65535 -> Z.of_nat (snd (size img)) <= 65535 ->
  image_ok rgba_ok img ->
  sprite_rle img = Ok (sprite_bytes img, opaque_count img).
Proof.
  intros Hw Hh Hok. rewrite sprite_rle_unfold.
  rewrite pack_HHH_fits by lia. rewrite bind_Ok.
  rewrite (for_in_append_count (range 0 (snd (size img))) _
             (fun y => row_bytes (load img) y (runs_of_row img y))
             (fun y => count_opaque
                         (flags_from (load img) LIME_KEY (fst (size img)) y 0))).
  - unfold sprite_bytes, opaque_count, u16. rewrite <- !app_assoc. reflexivity.
  - intros rle n y Hy. apply in_seq in Hy.
    rewrite row_runs_of_spans, bind_Ok.
    destruct (spans_fit (load img) LIME_KEY (fst (size img)) y Hw) as [Hcount Hfit].
    rewrite (emit_row_bytes (load img) (fst (size img)) y); try assumption.
    + rewrite spans_sum_len by exact I. unfold open_len, runs_of_row.
      rewrite Nat.add_0_r. reflexivity.
    + intros x Hx. apply Hok; [exact Hx | lia].
Qed.

End SpriteLayout.
Section SpriteSize.
Import Struct MakeSpans Layout.
Local Open Scope nat_scope.

Lemma range_length (a n : nat) : length (range a n) = n.
Proof. apply length_seq. Qed.

Lemma flat_map_length_sum {X : Type} (g : X -> list Z) (xs : list X) :
  length (flat_map g xs) = fold_right (fun x k => length (g x) + k) 0 xs.
Proof.
  induction xs as [|x xs IH]; simpl; [reflexivity|].
  rewrite length_app, IH. reflexivity.
Qed.

Lemma run_bytes_length (pixels : nat -> nat -> RGBA) (y : nat) (r : nat * nat) :
  length (run_bytes pixels y r) = 4 + 2 * snd r.
Proof.
  unfold run_bytes, u16. rewrite !length_app.
  rewrite (flat_map_length_const _ 2).
  - unfold range. rewrite length_seq. simpl. lia.
  - intros x. destruct (pixels x y) as [[[r0 g] b] a]. reflexivity.
Qed.

Lemma row_bytes_length (pixels : nat -> nat -> RGBA) (y : nat)
    (runs : list (nat * nat)) :
  length (row_bytes pixels y runs) = 2 + 4 * length runs + 2 * sum_len runs.
Proof.
  unfold row_bytes. rewrite length_app, flat_map_length_sum.
  change (length (u16 (Z.of_nat (length runs)))) with 2.
  unfold sum_len.
  induction runs as [|r runs IH]; cbn [fold_right length]; [lia|].
  rewrite run_bytes_length. lia.
Qed.

Lemma count_opaque_le (ts : list bool) : count_opaque ts <= length ts.
Proof. unfold count_opaque. apply filter_length_le. Qed.

Lemma flags_from_length (pixels : nat -> nat -> RGBA) (key_rgb : RGB) (w y x : nat) :
  length (flags_from pixels key_rgb w y x) = w - x.
Proof. unfold flags_from. rewrite length_map, length_seq. reflexivity. Qed.

(** Every run has a pixel, and between two runs there is a gap. *)
Lemma spans_le_opaque (ts : list bool) :
  forall x start,
    length (spans ts x start)
    <= count_opaque ts + match start with Some _ => 1 | None => 0 end.
Proof.
  induction ts as [|t ts IH]; intros x start.
  - destruct start; simpl; lia.
  - destruct t; cbn [spans]; unfold count_opaque in *; simpl.
    + rewrite length_app. specialize (IH (S x) None). destruct start; simpl in *; lia.
    + specialize (IH (S x) (Some (match start with Some s => s | None => x end))).
      simpl in IH. lia.
Qed.

Lemma spans_gaps (ts : list bool) :
  forall x start,
    length (spans ts x start) + count_opaque ts <= length ts + 1.
Proof.
  induction ts as [|t ts IH]; intros x start.
  - destruct start; unfold count_opaque; simpl; lia.
  - destruct t; cbn [spans]; unfold count_opaque in *; simpl.
    + rewrite length_app. specialize (IH (S x) None). destruct start; simpl in *; lia.
    + specialize (IH (S x) (Some (match start with Some s => s | None => x end))).
      simpl in IH. lia.
Qed.

Lemma rows_length (img : Image RGBA) (ys : list nat) :
  fold_right (fun y k => length (row_bytes (load img) y (runs_of_row img y)) + k) 0 ys
  = 2 * length ys
    + 4 * fold_right (fun y n => length (runs_of_row img y) + n) 0 ys
    + 2 * fold_right (fun y n =>
            count_opaque (flags_from (load img) LIME_KEY (fst (size img)) y 0) + n) 0 ys.
Proof.
  induction ys as [|y ys IH]; cbn [fold_right length]; [reflexivity|].
  rewrite IH, row_bytes_length. unfold runs_of_row at 2.
  rewrite spans_sum_len by exact I. unfold open_len. lia.
Qed.

Lemma sprite_bytes_length (img : Image RGBA) :
  length (sprite_bytes img)
  = 6 + 2 * snd (size img) + 4 * run_count img + 2 * opaque_count img.
Proof.
  unfold sprite_bytes, run_count, opaque_count.
  rewrite !length_app, flat_map_length_sum, rows_length.
  unfold range at 1. rewrite length_seq. unfold u16. cbn [length]. lia.
Qed.

(** A row of [w] pixels costs at most [3 * w + 5] bytes. *)
Lemma rows_bound (img : Image RGBA) (ys : list nat) :
  4 * fold_right (fun y n => length (runs_of_row img y) + n) 0 ys
  + 2 * fold_right (fun y n =>
          count_opaque (flags_from (load img) LIME_KEY (fst (size img)) y 0) + n) 0 ys
  <= length ys * (3 * fst (size img) + 3)
  /\ fold_right (fun y n =>
          count_opaque (flags_from (load img) LIME_KEY (fst (size img)) y 0) + n) 0 ys
     <= length ys * fst (size img).
Proof.
  induction ys as [|y ys [IH1 IH2]]; cbn [fold_right length]; [lia|].
  pose proof (spans_le_opaque (flags_from (load img) LIME_KEY (fst (size img)) y 0) 0 None)
    as H1.
  pose proof (spans_gaps (flags_from (load img) LIME_KEY (fst (size img)) y 0) 0 None)
    as H2.
  pose proof (count_opaque_le (flags_from (load img) LIME_KEY (fst (size img)) y 0)) as H3.
  rewrite flags_from_length in H2, H3. unfold runs_of_row at 1.
  cbn match in H1. rewrite !Nat.mul_succ_l. split; lia.
Qed.

Lemma sprite_bytes_bound (img : Image RGBA) :
  length (sprite_bytes img) <= 6 + snd (size img) * (3 * fst (size img) + 5)
  /\ opaque_count img <= fst (size img) * snd (size img).
Proof.
  rewrite sprite_bytes_length. unfold run_count, opaque_count.
  destruct (rows_bound img (range 0 (snd (size img)))) as [H1 H2].
  rewrite range_length in H1, H2. split; nia.
Qed.

End SpriteSize.
Section SpriteBytes.
Import Struct MakeSpans Layout.

Lemma Forall_flat_map_in {X : Type} (P : Z -> Prop) (g : X -> list Z) (xs : list X) :
  (forall x, In x xs -> Forall P (g x)) -> Forall P (flat_map g xs).
Proof.
  induction xs as [|x xs IH]; intros Hg; simpl; [constructor|].
  apply Forall_app. split; [apply Hg; left; reflexivity|].
  apply IH. intros x' Hin. apply Hg. right. exact Hin.
Qed.

Lemma u16_bytes (v : Z) : 0 <= v <= 65535 -> Forall byte (u16 v).
Proof.
  intros Hv. unfold u16, byte.
  change 255 with (Z.ones 8) at 2. rewrite Z.land_ones, Z.shiftr_div_pow2 by lia.
  change (2 ^ 8) with 256. repeat constructor; Z.div_mod_to_equations; lia.
Qed.

Lemma pixel_bytes_bytes (p : RGB) : rgb_ok p -> Forall byte (Dense.pixel_bytes p).
Proof.
  destruct p as [[r g] b]. intros (Hr & Hg & Hb). unfold Dense.pixel_bytes.
  apply (u16_bytes (ImageConverter.rgb565 r g b)), rgb565_range; assumption.
Qed.

Lemma dense_bytes (img : Image RGB) : image_ok rgb_ok img -> Forall byte (Dense.dense img).
Proof.
  unfold image_ok, Dense.dense. destruct (size img) as [w h]. simpl. intros Hok.
  apply Forall_flat_map_in. intros y Hy. apply Forall_flat_map_in. intros x Hx.
  apply in_seq in Hy, Hx. apply pixel_bytes_bytes, Hok; lia.
Qed.

Lemma sprite_bytes_bytes (img : Image RGBA) :
  Z.of_nat (fst (size img)) <= 65535 -> Z.of_nat (snd (size img)) <= 65535 ->
  image_ok rgba_ok img -> Forall byte (sprite_bytes img).
Proof.
  intros Hw Hh Hok. unfold sprite_bytes.
  repeat (apply Forall_app; split); try (apply u16_bytes; lia).
  apply Forall_flat_map_in. intros y Hy. apply in_seq in Hy.
  destruct (spans_fit (load img) LIME_KEY (fst (size img)) y Hw) as [Hcount Hfit].
  unfold row_bytes, runs_of_row. apply Forall_app. split; [apply u16_bytes; lia|].
  apply Forall_flat_map_in. intros [sx ln] Hin.
  rewrite Forall_forall in Hfit.
  pose proof (Hfit _ (proj2 (list_elem_of_In _ _) Hin)) as Hr. simpl in Hr.
  unfold run_bytes. simpl fst. simpl snd.
  repeat (apply Forall_app; split); try (apply u16_bytes; lia).
  apply Forall_flat_map_in. intros x Hx. apply in_seq in Hx.
  apply pixel_bytes_bytes.
  assert (Hxw : (x < fst (size img))%nat) by lia.
  assert (Hyh : (y < snd (size img))%nat) by lia.
  specialize (Hok x y Hxw Hyh).
  destruct (load img x y) as [[[r g] b] a]. simpl in *. tauto.
Qed.

Lemma flags_all_opaque (pixels : nat -> nat -> RGBA) (key_rgb : RGB) (w y : nat) :
  (forall x, (x < w)%nat -> is_transparent key_rgb (pixels x y) = false) ->
  flags_from pixels key_rgb w y 0 = repeat false w.
Proof.
  intros Hop. unfold flags_from. rewrite Nat.sub_0_r.
  assert (Hgen : forall n a, (a + n <= w)%nat ->
            map (fun c => is_transparent key_rgb (pixels c y)) (seq a n) = repeat false n).
  { induction n as [|n IH]; intros a Ha; simpl; [reflexivity|].
    rewrite Hop by lia. f_equal. apply IH. lia. }
  apply Hgen. lia.
Qed.

End SpriteBytes.

(** Discharges [image_ok] on a concrete 2x2 image. *)
Ltac two_by_two_ok :=
  let x := fresh "x" in let y := fresh "y" in
  let Hx := fresh "Hx" in let Hy := fresh "Hy" in
  intros x y Hx Hy; simpl in Hx, Hy;
  destruct x as [|[|x]]; [| |lia]; (destruct y as [|[|y]]; [| |lia]);
  vm_compute; intuition discriminate.

Lemma flat_map_ext_within {X : Type} (f g : X -> list Z) (xs : list X) :
  (forall x, In x xs -> f x = g x) -> flat_map f xs = flat_map g xs.
Proof.
  induction xs as [|x xs IH]; intros Hfg; simpl; [reflexivity|].
  rewrite Hfg by (left; reflexivity).
  rewrite IH by (intros; apply Hfg; right; assumption). reflexivity.
Qed.

(** X5. The two nested [while] loops of the row scanner compute [spans]:
    one pass over the transparency of the pixels of the row that opens a
    run at an opaque pixel and closes it at the next transparent pixel or
    at the end of the row.  This holds for every image, width and row,
    and the loops never run out of steps. *)
Theorem scanner_computes_spans (pixels : nat -> nat -> RGBA) (key_rgb : RGB)
    (w y : nat) :
  MakeSpans.row_runs_of pixels key_rgb w y
  = Ok (Layout.spans (Layout.flags_from pixels key_rgb w y 0) 0 None).
Proof. apply row_runs_of_spans. Qed.

(** X6. For an image with 8-bit channels whose width and height fit 16
    bits, the sprite encoder returns exactly [Layout.sprite_bytes]: the
    header, then for each row from the top its run count and, for each
    run, start, length and the codec bytes of its pixels from left to
    right; the count it reports is the number of pixels that are not
    transparent. *)
Theorem sprite_buffer_layout (img : Image RGBA) :
  Z.of_nat (fst (size img)) <= 65535 -> Z.of_nat (snd (size img)) <= 65535 ->
  image_ok rgba_ok img ->
  MakeSpans.sprite_rle img = Ok (Layout.sprite_bytes img, Layout.opaque_count img).
Proof. apply sprite_rle_layout. Qed.

Lemma sprite_buffer_layout_witness :
  MakeSpans.sprite_rle Examples.scenario_2x2
  = Ok (Layout.sprite_bytes Examples.scenario_2x2, 2%nat).
Proof.
  apply (sprite_buffer_layout Examples.scenario_2x2).
  - simpl. lia.
  - simpl. lia.
  - two_by_two_ok.
Defined.

(** X7. The sprite buffer of such an image is
    6 + 2 * h + 4 * (number of runs) + 2 * (pixels kept) bytes long, at
    most 6 + h * (3 * w + 5) bytes, and the encoder keeps at most w * h
    pixels. *)
Theorem sprite_buffer_size (img : Image RGBA) :
  Z.of_nat (fst (size img)) <= 65535 -> Z.of_nat (snd (size img)) <= 65535 ->
  image_ok rgba_ok img ->
  exists rle kept,
    MakeSpans.sprite_rle img = Ok (rle, kept)
    /\ length rle
       = (6 + 2 * snd (size img) + 4 * Layout.run_count img + 2 * kept)%nat
    /\ (length rle <= 6 + snd (size img) * (3 * fst (size img) + 5))%nat
    /\ (kept <= fst (size img) * snd (size img))%nat.
Proof.
  intros Hw Hh Hok. exists (Layout.sprite_bytes img), (Layout.opaque_count img).
  split; [apply sprite_rle_layout; assumption|].
  split; [apply sprite_bytes_length|]. apply sprite_bytes_bound.
Qed.

Lemma sprite_buffer_size_witness :
  exists rle kept,
    MakeSpans.sprite_rle Examples.scenario_2x2 = Ok (rle, kept)
    /\ length rle = (6 + 2 * 2 + 4 * Layout.run_count Examples.scenario_2x2 + 2 * kept)%nat
    /\ (length rle <= 6 + 2 * (3 * 2 + 5))%nat
    /\ (kept <= 2 * 2)%nat.
Proof.
  apply (sprite_buffer_size Examples.scenario_2x2).
  - simpl. lia.
  - simpl. lia.
  - two_by_two_ok.
Defined.

(** X8. Every element of the sprite buffer and of the dense buffer of
    such an image is a byte, between 0 and 255. *)
Theorem encoders_emit_bytes (img : Image RGBA) :
  Z.of_nat (fst (size img)) <= 65535 -> Z.of_nat (snd (size img)) <= 65535 ->
  image_ok rgba_ok img ->
  exists rle kept full_raw,
    MakeSpans.sprite_rle img = Ok (rle, kept)
    /\ MakeSpans.full_frame img = Ok full_raw
    /\ Forall Layout.byte rle
    /\ Forall Layout.byte full_raw.
Proof.
  intros Hw Hh Hok.
  exists (Layout.sprite_bytes img), (Layout.opaque_count img), (Dense.dense (convert_RGB img)).
  split; [apply sprite_rle_layout; assumption|].
  split; [apply full_frame_dense, Hok|].
  split; [apply sprite_bytes_bytes; assumption|].
  apply dense_bytes, image_ok_convert_RGB, Hok.
Qed.

Lemma encoders_emit_bytes_witness :
  exists rle kept full_raw,
    MakeSpans.sprite_rle Examples.scenario_2x2 = Ok (rle, kept)
    /\ MakeSpans.full_frame Examples.scenario_2x2 = Ok full_raw
    /\ Forall Layout.byte rle
    /\ Forall Layout.byte full_raw.
Proof.
  apply (encoders_emit_bytes Examples.scenario_2x2).
  - simpl. lia.
  - simpl. lia.
  - two_by_two_ok.
Defined.

(** X9. For an image of positive width without a transparent pixel every
    row is the single run (0, w), the sprite buffer is the header followed
    for each row by the count 1, the start 0, the length w and the codec
    bytes of the whole row, and all w * h pixels are kept. *)
Theorem fully_opaque_sprite (img : Image RGBA) :
  Z.of_nat (fst (size img)) <= 65535 -> Z.of_nat (snd (size img)) <= 65535 ->
  image_ok rgba_ok img ->
  (0 < fst (size img))%nat ->
  (forall x y, (x < fst (size img))%nat -> (y < snd (size img))%nat ->
     MakeSpans.is_transparent MakeSpans.LIME_KEY (load img x y) = false) ->
  let w := fst (size img) in
  let h := snd (size img) in
  (forall y, (y < h)%nat ->
     MakeSpans.row_runs_of (load img) MakeSpans.LIME_KEY w y = Ok [(0%nat, w)])
  /\ MakeSpans.sprite_rle img
     = Ok (Layout.u16 (Z.of_nat w) ++ Layout.u16 (Z.of_nat h) ++ Layout.u16 0x8F01
           ++ flat_map (fun y =>
                Layout.u16 1 ++ Layout.u16 0 ++ Layout.u16 (Z.of_nat w)
                ++ flat_map (fun x => Dense.pixel_bytes (Layout.rgb_of (load img x y)))
                            (range 0 w))
              (range 0 h),
           (w * h)%nat).
Proof.
  intros Hw Hh Hok Hpos Hop w h.
  assert (Hrow : forall y, (y < h)%nat -> Layout.runs_of_row img y = [(0%nat, w)]).
  { intros y Hy. unfold Layout.runs_of_row. fold w.
    rewrite flags_all_opaque by (intros x Hx; apply Hop; assumption).
    rewrite spans_all_opaque by exact I. unfold w in *.
    destruct (fst (size img)) eqn:Ew; [lia | reflexivity]. }
  split.
  - intros y Hy. rewrite row_runs_of_spans. f_equal. apply (Hrow y Hy).
  - rewrite sprite_rle_layout by assumption. f_equal. f_equal.
    + unfold Layout.sprite_bytes. fold w h. do 3 f_equal.
      apply flat_map_ext_within. intros y Hy. apply in_seq in Hy.
      rewrite Hrow by lia. unfold Layout.row_bytes, Layout.run_bytes. simpl.
      rewrite app_nil_r. reflexivity.
    + unfold Layout.opaque_count. fold w h.
      assert (Hgen : forall ys, (forall y, In y ys -> (y < h)%nat) ->
                fold_right (fun y n =>
                  (Layout.count_opaque
                     (Layout.flags_from (load img) MakeSpans.LIME_KEY w y 0) + n)%nat)
                  0%nat ys = (w * length ys)%nat).
      { induction ys as [|y ys IH]; intros Hys; simpl; [lia|].
        rewrite IH by (intros; apply Hys; right; assumption).
        rewrite flags_all_opaque
          by (intros x Hx; apply Hop; [exact Hx | apply Hys; left; reflexivity]).
        unfold Layout.count_opaque.
        assert (Hf : forall n, List.filter negb (repeat false n) = repeat false n).
        { induction n as [|n IHn]; simpl; [reflexivity | rewrite IHn; reflexivity]. }
        rewrite Hf, repeat_length. lia. }
      rewrite Hgen by (intros y Hy; apply in_seq in Hy; lia).
      rewrite range_length. reflexivity.
Qed.

Lemma fully_opaque_sprite_witness :
  MakeSpans.sprite_rle (Samples.solid 2 1 Samples.red)
  = Ok ([0; 2; 0; 1; 0x8F; 0x01;  0; 1;  0; 0; 0; 2;  0xF8; 0; 0xF8; 0], 2%nat).
Proof.
  apply (fully_opaque_sprite (Samples.solid 2 1 Samples.red)).
  - simpl. lia.
  - simpl. lia.
  - intros x y _ _. vm_compute. intuition discriminate.
  - simpl. lia.
  - intros x y _ _. reflexivity.
Defined.

Section DecimalNames.
Import PackAssets Decimal RawExport.
Variable unicode_span : list ascii -> list Z * list ascii.

Lemma list_ascii_of_string_app (a b : string) :
  list_ascii_of_string (a +:+ b) = list_ascii_of_string a ++ list_ascii_of_string b.
Proof. induction a as [|c a IH]; simpl; [reflexivity | rewrite IH; reflexivity]. Qed.

Lemma digit_char (d : Z) :
  0 <= d < 10 ->
  is_digit (ascii_of_nat (48 + Z.to_nat d)) = true
  /\ digit_value (ascii_of_nat (48 + Z.to_nat d)) = d
  /\ ascii_of_nat (48 + Z.to_nat d) <> "/"%char.
Proof.
  intros Hd.
  assert (Hn : nat_of_ascii (ascii_of_nat (48 + Z.to_nat d)) = (48 + Z.to_nat d)%nat)
    by (apply nat_ascii_embedding; lia).
  unfold is_digit, digit_value. rewrite Hn. repeat split.
  - apply andb_true_iff. split; apply Nat.leb_le; lia.
  - lia.
  - intros Heq. apply (f_equal nat_of_ascii) in Heq. rewrite Hn in Heq.
    change (nat_of_ascii "/"%char) with 47%nat in Heq. lia.
Qed.

Lemma int_of_digits_snoc (ds : list Z) (d : Z) :
  int_of_digits (ds ++ [d]) = 10 * int_of_digits ds + d.
Proof. unfold int_of_digits. rewrite fold_left_app. reflexivity. Qed.

(** With enough fuel the digits of [n] are decimal digits that read back
    as [n]. *)
Lemma digits_rev_spec (fuel : nat) :
  forall n, 0 <= n < 2 ^ Z.of_nat fuel -> (0 < fuel)%nat ->
    int_of_digits (List.map digit_value (rev (digits_rev fuel n))) = n
    /\ Forall (fun c => is_digit c = true /\ c <> "/"%char) (digits_rev fuel n)
    /\ digits_rev fuel n <> [].
Proof.
  induction fuel as [|fuel IH]; intros n Hn Hfuel.
  - lia.
  - cbn [digits_rev].
    assert (Hd : 0 <= n mod 10 < 10) by (apply Z.mod_pos_bound; lia).
    destruct (digit_char (n mod 10) Hd) as (Hdig & Hval & Hslash).
    destruct (Z.ltb_spec n 10) as [Hlt | Hge].
    + split; [|split; [repeat constructor; assumption | discriminate]].
      cbn [rev app List.map]. unfold int_of_digits. cbn [fold_left]. rewrite Hval.
      rewrite Z.mod_small by lia. lia.
    + assert (Hn' : 0 <= n / 10 < 2 ^ Z.of_nat fuel).
      { rewrite Nat2Z.inj_succ, Z.pow_succ_r in Hn by lia.
        split; [apply Z.div_pos; lia|].
        apply Z.div_lt_upper_bound; lia. }
      assert (Hpos : (0 < fuel)%nat).
      { destruct fuel; [|lia]. simpl in Hn'. Z.div_mod_to_equations. lia. }
      destruct (IH (n / 10) Hn' Hpos) as (Hint & Hall & Hne).
      split; [|split; [constructor; [split; assumption | exact Hall] | discriminate]].
      cbn [rev]. rewrite List.map_app. cbn [List.map].
      rewrite int_of_digits_snoc, Hint, Hval.
      Z.div_mod_to_equations. lia.
Qed.

Lemma digits_spec (n : Z) :
  0 <= n ->
  int_of_digits (List.map digit_value (digits n)) = n
  /\ Forall (fun c => is_digit c = true /\ c <> "/"%char) (digits n)
  /\ digits n <> [].
Proof.
  intros Hn. unfold digits.
  assert (Hfuel : 0 <= n < 2 ^ Z.of_nat (S (Z.to_nat (Z.log2 n)))).
  { split; [exact Hn|]. rewrite Nat2Z.inj_succ, Z2Nat.id by apply Z.log2_nonneg.
    destruct (Z.eq_dec n 0) as [-> | Hnz]; [reflexivity|].
    apply Z.log2_spec. lia. }
  destruct (digits_rev_spec _ n Hfuel ltac:(lia)) as (Hint & Hall & Hne).
  split; [exact Hint|]. split.
  - apply Forall_rev. exact Hall.
  - intros Hnil. apply Hne. apply (f_equal (@rev _)) in Hnil.
    rewrite rev_involutive in Hnil. exact Hnil.
Qed.

Lemma str_int_list (n : Z) :
  0 <= n -> list_ascii_of_string (str_int n) = digits n.
Proof.
  intros Hn. unfold str_int. destruct (Z.ltb_spec n 0); [lia|].
  apply list_ascii_of_string_of_list_ascii.
Qed.

(** A run of ASCII digits that an ASCII character ends is read without
    the digits of other scripts being looked for. *)
Lemma span_digits_stop (ds rest : list ascii) (c : ascii) :
  Forall (fun d => is_digit d = true) ds ->
  is_digit c = false -> is_ascii c = true ->
  span_digits unicode_span (ds ++ c :: rest)
  = (List.map digit_value ds, c :: rest).
Proof.
  intros Hds Hc Ha. induction Hds as [|d ds Hd Hds IH]; simpl.
  - rewrite Hc, Ha. reflexivity.
  - rewrite Hd, IH. reflexivity.
Qed.

Lemma ascii_eqb_nocase_refl (c : ascii) : ascii_eqb_nocase c c = true.
Proof. unfold ascii_eqb_nocase. apply Ascii.eqb_refl. Qed.

Lemma strip_nocase_app (pat rest : list ascii) :
  strip_nocase pat (pat ++ rest) = Some rest.
Proof.
  induction pat as [|p pat IH]; simpl; [destruct rest; reflexivity|].
  rewrite ascii_eqb_nocase_refl. exact IH.
Qed.

Lemma name_rev_app (a r : list ascii) :
  Forall (fun c => c <> "/"%char) a -> name_rev (a ++ r) = a ++ name_rev r.
Proof.
  induction 1 as [|c a Hc Ha IH]; simpl; [reflexivity|].
  destruct (Ascii.eqb_spec c "/"%char) as [-> | _]; [contradiction|].
  rewrite IH. reflexivity.
Qed.

(** The reversed name of an exported file. *)
Lemma exported_name_rev (base : string) (w h : Z) :
  0 <= w -> 0 <= h ->
  rev (list_ascii_of_string (path_name (out_path base w h)))
  = suffix_rev ++ rev (digits h) ++ "x"%char :: rev (digits w)
    ++ "_"%char :: name_rev (rev (list_ascii_of_string base)).
Proof.
  intros Hw Hh. unfold path_name, out_path.
  rewrite list_ascii_of_string_of_list_ascii, rev_involutive.
  rewrite !list_ascii_of_string_app, !str_int_list by assumption.
  rewrite !rev_app_distr.
  change (rev (list_ascii_of_string "_rgb565_be.raw")) with suffix_rev.
  change (rev (list_ascii_of_string "x")) with ["x"%char].
  change (rev (list_ascii_of_string "_")) with ["_"%char].
  destruct (digits_spec w Hw) as (_ & Hdw & _).
  destruct (digits_spec h Hh) as (_ & Hdh & _).
  rewrite <- !app_assoc.
  rewrite name_rev_app by (repeat constructor; discriminate).
  rewrite name_rev_app
    by (apply Forall_rev; eapply Forall_impl; [exact Hdh | simpl; tauto]).
  change (["x"%char] ++ ?l) with ("x"%char :: l). cbn [app name_rev].
  rewrite name_rev_app
    by (apply Forall_rev; eapply Forall_impl; [exact Hdw | simpl; tauto]).
  reflexivity.
Qed.

Lemma size_from_name_out_path (base : string) (w h : Z) :
  0 <= w -> 0 <= h -> size_from_name unicode_span (out_path base w h) = Some (w, h).
Proof.
  intros Hw Hh. unfold size_from_name, RAW_RE_search.
  rewrite exported_name_rev by assumption.
  destruct (digits_spec w Hw) as (Hiw & Hdw & Hnw).
  destruct (digits_spec h Hh) as (Hih & Hdh & Hnh).
  rewrite <- (rev_involutive (digits w)), List.map_rev in Hiw.
  rewrite <- (rev_involutive (digits h)), List.map_rev in Hih.
  unfold match_ending. rewrite strip_nocase_app.
  rewrite span_digits_stop;
    [| apply Forall_rev; eapply Forall_impl; [exact Hdh | simpl; tauto]
     | reflexivity | reflexivity].
  destruct (rev (digits h)) as [|dh rh] eqn:Erh.
  { exfalso. apply Hnh. apply (f_equal (@rev _)) in Erh.
    rewrite rev_involutive in Erh. exact Erh. }
  cbn [List.map]. change (ascii_eqb_nocase "x" "x") with true. cbv iota.
  rewrite span_digits_stop;
    [| apply Forall_rev; eapply Forall_impl; [exact Hdw | simpl; tauto]
     | reflexivity | reflexivity].
  destruct (rev (digits w)) as [|dw rw] eqn:Erw.
  { exfalso. apply Hnw. apply (f_equal (@rev _)) in Erw.
    rewrite rev_involutive in Erw. exact Erw. }
  cbn [List.map]. change (Ascii.eqb "_" "_") with true. cbv iota.
  cbn [List.map] in Hiw, Hih. rewrite Hiw, Hih. reflexivity.
Qed.

End DecimalNames.

Section StageFiles.
Import PackAssets Batch.
Variable unicode_span : list ascii -> list Z * list ascii.
Variable zlib_compress : list Z -> Z -> list Z.

(** Unfolds the monadic operations of the script. *)
Ltac run_stage :=
  cbv [compress_one read_bytes path_exists write_bytes print emit get_fs put_fs
       raise sys_exit mbind M_bind mret M_ret fs log].

Lemma append_zlib_differs (p : string) : p <> (p +:+ ".zlib")%string.
Proof.
  induction p as [|c p IH]; simpl; [discriminate|].
  intros Heq. injection Heq as Heq. exact (IH Heq).
Qed.

(** What a call can do to the files: nothing, or write its one output,
    and that only over nothing unless overwriting is allowed. *)
Lemma compress_one_fs (path : string) (lvl : Z) (force overwrite : bool) (s : World) :
  let s' := snd (compress_one unicode_span zlib_compress path lvl force overwrite s) in
  let out := (path +:+ ".zlib")%string in
  fs s' = fs s
  \/ (exists data, fs s !! path = Some data
        /\ fs s' = <[out := zlib_compress data lvl]> (fs s)
        /\ (overwrite = true \/ fs s !! out = None)).
Proof.
  destruct s as [m lg]. unfold compress_one.
  destruct (size_from_name unicode_span path) as [[w h]|]; run_stage; [|left; reflexivity].
  destruct (m !! path) as [data|] eqn:Hdata; [|left; reflexivity].
  destruct (negb (Z.of_nat (length data) =? w * h * 2) && negb force);
    [left; reflexivity|].
  destruct (bool_decide (is_Some (m !! (path +:+ ".zlib")%string))) eqn:Hex;
    destruct overwrite; simpl; try (left; reflexivity);
    destruct (zlib_level_ok lvl); simpl; try (left; reflexivity);
    right; exists data; (split; [reflexivity|]); (split; [reflexivity|]).
  - left. reflexivity.
  - left. reflexivity.
  - right. apply bool_decide_eq_false in Hex.
    destruct (m !! (path +:+ ".zlib")%string) eqn:Hout; [|reflexivity].
    exfalso. apply Hex. eexists. reflexivity.
Qed.

Lemma file_result_fs (args : Args) (f : string) (s : World) :
  fs (snd (file_result unicode_span zlib_compress args f s))
  = fs (snd (compress_one unicode_span zlib_compress f (level args) (force args) (overwrite args) s)).
Proof.
  unfold file_result.
  destruct (compress_one unicode_span zlib_compress f (level args) (force args) (overwrite args) s)
    as [[b | e | c] s1]; reflexivity.
Qed.

Lemma batch_world_frame (args : Args) (files : list string) (p : string) :
  (forall f, In f files -> p <> (f +:+ ".zlib")%string) ->
  forall s, fs (batch_world unicode_span zlib_compress args files s) !! p = fs s !! p.
Proof.
  induction files as [|f files IH]; intros Hp s; simpl; [reflexivity|].
  rewrite IH by (intros; apply Hp; right; assumption).
  rewrite file_result_fs.
  destruct (compress_one_fs f (level args) (force args) (overwrite args) s)
    as [-> | (data & _ & -> & _)]; [reflexivity|].
  apply lookup_insert_ne. intros Heq. apply (Hp f); [left; reflexivity | congruence].
Qed.

Lemma batch_world_keeps (args : Args) (files : list string) :
  overwrite args = false ->
  forall s, fs s ⊆ fs (batch_world unicode_span zlib_compress args files s).
Proof.
  intros Hover. induction files as [|f files IH]; intros s; simpl; [reflexivity|].
  etransitivity; [|apply IH]. rewrite file_result_fs.
  destruct (compress_one_fs f (level args) (force args) (overwrite args) s)
    as [-> | (data & _ & -> & [Hov | Hnone])]; [reflexivity | congruence |].
  apply insert_subseteq. exact Hnone.
Qed.

End StageFiles.
Section StageMain.
Import PackAssets Batch Outputs.
Variable unicode_span : list ascii -> list Z * list ascii.
Variable zlib_compress : list Z -> Z -> list Z.
Variable discover : bool -> gmap string (list Z) -> list string.

Lemma rev_append_zlib (q : string) :
  rev (list_ascii_of_string (q +:+ ".zlib"))
  = "b"%char :: "i"%char :: "l"%char :: "z"%char :: "."%char
    :: rev (list_ascii_of_string q).
Proof. rewrite list_ascii_of_string_app, rev_app_distr. reflexivity. Qed.

Lemma has_zlib_suffix_append (q : string) : has_zlib_suffix (q +:+ ".zlib") = true.
Proof. unfold has_zlib_suffix. rewrite rev_append_zlib. reflexivity. Qed.

(** The files after [main], whatever the arguments. *)
Lemma main_fs (args : Args) (s : World) :
  fs (snd (main unicode_span zlib_compress discover args s)) = fs s
  \/ fs (snd (main unicode_span zlib_compress discover args s))
     = fs (batch_world unicode_span zlib_compress args (discover (recursive args) (fs s))
             (after_glob args s)).
Proof.
  destruct (Z_lt_dec (level args) 0) as [Hlo | Hlo];
    [left; rewrite main_bad_level by (left; exact Hlo); reflexivity|].
  destruct (Z_lt_dec 9 (level args)) as [Hhi | Hhi];
    [left; rewrite main_bad_level by (right; exact Hhi); reflexivity|].
  rewrite main_in_range by lia.
  destruct (discover (recursive args) (fs s)) as [|f files];
    [left; reflexivity | right; reflexivity].
Qed.

Lemma main_frame (args : Args) (s : World) (p : string) :
  has_zlib_suffix p = false ->
  fs (snd (main unicode_span zlib_compress discover args s)) !! p = fs s !! p.
Proof.
  intros Hp. destruct (main_fs args s) as [-> | ->]; [reflexivity|].
  rewrite batch_world_frame; [reflexivity|].
  intros f _ ->. rewrite has_zlib_suffix_append in Hp. discriminate.
Qed.

Lemma main_keeps (args : Args) (s : World) :
  overwrite args = false ->
  fs s ⊆ fs (snd (main unicode_span zlib_compress discover args s)).
Proof.
  intros Hover. destruct (main_fs args s) as [-> | ->]; [reflexivity|].
  apply (batch_world_keeps unicode_span zlib_compress args _ Hover (after_glob args s)).
Qed.

(** A compressed output does not have the name of a raw file. *)
Lemma size_from_name_zlib (q : string) : size_from_name unicode_span (q +:+ ".zlib") = None.
Proof.
  unfold size_from_name, RAW_RE_search, path_name.
  rewrite list_ascii_of_string_of_list_ascii, rev_involutive, rev_append_zlib.
  reflexivity.
Qed.

End StageMain.

Section StageAgain.
Import PackAssets Batch.
Variable unicode_span : list ascii -> list Z * list ascii.
Variable zlib_compress : list Z -> Z -> list Z.

Lemma zlib_level_ok_main (lvl : Z) : 0 <= lvl <= 9 -> zlib_level_ok lvl = true.
Proof.
  intros Hlvl. unfold zlib_level_ok. apply andb_true_iff. split; apply Z.leb_le; lia.
Qed.

(** A second call on a file that was just handled finds the output and
    leaves the files as they are. *)
Lemma compress_one_again (path : string) (w h lvl : Z) (data : list Z)
    (force overwrite : bool) (s : World) :
  size_from_name unicode_span path = Some (w, h) ->
  fs s !! path = Some data ->
  Z.of_nat (length data) = w * h * 2 \/ force = true ->
  0 <= lvl <= 9 ->
  let first := compress_one unicode_span zlib_compress path lvl force overwrite s in
  let second := compress_one unicode_span zlib_compress path lvl force overwrite (snd first) in
  fst first = Val true /\ fst second = Val true
  /\ fs (snd second) = fs (snd first)
  /\ is_Some (fs (snd first) !! (path +:+ ".zlib")%string).
Proof.
  intros Hname Hdata Hpass Hlvl first second.
  pose proof (zlib_level_ok_main lvl Hlvl) as Hok.
  pose proof (compress_one_checked unicode_span zlib_compress path w h lvl data force overwrite s
                Hname Hdata Hpass Hok) as Hfirst.
  cbv zeta in Hfirst. fold first in Hfirst.
  set (out := (path +:+ ".zlib")%string) in *.
  assert (Hne : out <> path) by (intros Heq; exact (append_zlib_differs path (eq_sym Heq))).
  assert (Hshape : fst first = Val true
                   /\ fs (snd first) !! path = Some data
                   /\ is_Some (fs (snd first) !! out)
                   /\ (overwrite = true ->
                       fs (snd first) !! out = Some (zlib_compress data lvl))).
  { destruct (bool_decide (is_Some (fs s !! out))) eqn:Hex;
      destruct overwrite; simpl in Hfirst; rewrite Hfirst; simpl.
    - split; [reflexivity|]. split; [rewrite lookup_insert_ne by exact Hne; exact Hdata|].
      rewrite lookup_insert_eq. split; [eexists; reflexivity | reflexivity].
    - apply bool_decide_eq_true in Hex. repeat split; try assumption. discriminate.
    - split; [reflexivity|]. split; [rewrite lookup_insert_ne by exact Hne; exact Hdata|].
      rewrite lookup_insert_eq. split; [eexists; reflexivity | reflexivity].
    - split; [reflexivity|]. split; [rewrite lookup_insert_ne by exact Hne; exact Hdata|].
      rewrite lookup_insert_eq. split; [eexists; reflexivity | discriminate]. }
  destruct Hshape as (Hval & Hdata1 & Hout1 & Hsame).
  pose proof (compress_one_checked unicode_span zlib_compress path w h lvl data force overwrite
                (snd first) Hname Hdata1 Hpass Hok) as Hsecond.
  cbv zeta in Hsecond. fold second out in Hsecond.
  rewrite (bool_decide_eq_true_2 _ Hout1) in Hsecond.
  split; [exact Hval|]. rewrite Hsecond.
  destruct overwrite; simpl.
  - split; [reflexivity|]. split; [|exact Hout1].
    apply insert_id. apply Hsame. reflexivity.
  - split; [reflexivity|]. split; [reflexivity | exact Hout1].
Qed.

(** A file that cannot be read is reported and does not stop the loop. *)
Lemma loop_body_unreadable (args : Args) (ok : nat) (f : string) (w h : Z) (s : World) :
  size_from_name unicode_span f = Some (w, h) ->
  fs s !! f = None ->
  loop_body unicode_span zlib_compress args ok f s
  = (Val ok,
     mkWorld (fs s) (log s ++ [ERead f; EPrint (MsgFail (path_name f))])).
Proof.
  intros Hname Hnone. destruct s as [m lg]. simpl in *.
  unfold loop_body, try_except, compress_one. rewrite Hname.
  cbv [read_bytes print emit get_fs raise mbind M_bind mret M_ret fs log].
  rewrite Hnone. simpl. rewrite <- app_assoc. reflexivity.
Qed.

End StageAgain.

Section ExportedFile.
Import PackAssets RawExport.

Lemma export_writes (base : string) (img2 : Image RGB) (m : gmap string (list Z)) :
  image_ok rgb_ok img2 ->
  export base img2 m
  = Ok (<[out_path base (Z.of_nat (fst (size img2))) (Z.of_nat (snd (size img2)))
          := Dense.dense img2]> m).
Proof.
  intros Hok. unfold export.
  rewrite (to_rgb565_be_bytes_dense img2 Hok).
  destruct (size img2) as [w h]. reflexivity.
Qed.

End ExportedFile.

(** X10. The name image_converter.py gives its output,
    <base>_<w>x<h>_rgb565_be.raw with w and h in decimal, is read back by
    [size_from_name] of pack_assets.py as (w, h), for any base path and
    any w, h >= 0. *)
Theorem exported_name_parses
    (unicode_span : list ascii -> list Z * list ascii)
    (base : string) (w h : Z) :
  0 <= w -> 0 <= h ->
  PackAssets.size_from_name unicode_span (RawExport.out_path base w h) = Some (w, h).
Proof. apply size_from_name_out_path. Qed.

Lemma exported_name_parses_witness :
  PackAssets.size_from_name Batch.ascii_only
    (RawExport.out_path "img/pic.v2" 240 135) = Some (240, 135).
Proof.
  apply (exported_name_parses Batch.ascii_only "img/pic.v2" 240 135); lia.
Defined.

(** X11. The file image_converter.py writes for an image with 8-bit
    channels passes the size check of pack_assets.py without the force
    flag: [compress_one] at a level 0..9 returns True for it and its
    .zlib output exists afterwards. *)
Theorem exported_file_passes_size_check (unicode_span : list ascii -> list Z * list ascii)
    (zlib_compress : list Z -> Z -> list Z)
    (base : string) (img2 : Image RGB) (m : gmap string (list Z))
    (lvl : Z) (overwrite : bool) (lg : list PackAssets.Event) :
  image_ok rgb_ok img2 ->
  0 <= lvl <= 9 ->
  let path := RawExport.out_path base (Z.of_nat (fst (size img2)))
                (Z.of_nat (snd (size img2))) in
  exists m',
    RawExport.export base img2 m = Ok m'
    /\ m' !! path = Some (Dense.dense img2)
    /\ fst (PackAssets.compress_one unicode_span zlib_compress path lvl false overwrite
              (PackAssets.mkWorld m' lg)) = PackAssets.Val true
    /\ is_Some (PackAssets.fs
                  (snd (PackAssets.compress_one unicode_span zlib_compress path lvl false overwrite
                          (PackAssets.mkWorld m' lg)))
                !! (path +:+ ".zlib")%string).
Proof.
  intros Hok Hlvl path. eexists. split; [apply export_writes, Hok|].
  fold path. split; [apply lookup_insert_eq|].
  destruct (compress_one_again unicode_span zlib_compress path
              (Z.of_nat (fst (size img2))) (Z.of_nat (snd (size img2))) lvl
              (Dense.dense img2) false overwrite
              (PackAssets.mkWorld (<[path := Dense.dense img2]> m) lg))
    as (Hfirst & _ & _ & Hout).
  - apply size_from_name_out_path; lia.
  - apply lookup_insert_eq.
  - left. rewrite dense_length. lia.
  - exact Hlvl.
  - split; [exact Hfirst | exact Hout].
Qed.

Lemma exported_file_passes_size_check_witness :
  exists m',
    RawExport.export "dot" Samples.red_dot ∅ = Ok m'
    /\ m' !! "dot_1x1_rgb565_be.raw"%string = Some [0xF8; 0x00]
    /\ fst (PackAssets.compress_one Batch.ascii_only Batch.stored "dot_1x1_rgb565_be.raw" 9 false false
              (PackAssets.mkWorld m' [])) = PackAssets.Val true
    /\ is_Some (PackAssets.fs
                  (snd (PackAssets.compress_one Batch.ascii_only Batch.stored "dot_1x1_rgb565_be.raw" 9
                          false false (PackAssets.mkWorld m' [])))
                !! "dot_1x1_rgb565_be.raw.zlib"%string).
Proof.
  apply (exported_file_passes_size_check Batch.ascii_only Batch.stored "dot" Samples.red_dot ∅ 9 false []).
  - intros x y _ _. vm_compute. intuition discriminate.
  - lia.
Defined.

(** X12. Whatever the arguments and the files found, [main] of
    pack_assets.py leaves every path that does not end in .zlib as it
    was: it never changes, creates or removes a raw input or any other
    file. *)
Theorem main_touches_only_zlib (unicode_span : list ascii -> list Z * list ascii)
    (zlib_compress : list Z -> Z -> list Z)
    (discover : bool -> gmap string (list Z) -> list string)
    (args : PackAssets.Args) (s : PackAssets.World) (p : string) :
  Outputs.has_zlib_suffix p = false ->
  PackAssets.fs (snd (PackAssets.main unicode_span zlib_compress discover args s)) !! p
  = PackAssets.fs s !! p.
Proof. apply main_frame. Qed.

Lemma main_touches_only_zlib_witness :
  PackAssets.fs
    (snd (PackAssets.main Batch.ascii_only Batch.stored (Batch.found ["dot_1x1_rgb565_be.raw"%string])
            (Batch.args9 false true) Samples.one_pixel_file))
  !! "dot_1x1_rgb565_be.raw"%string
  = PackAssets.fs Samples.one_pixel_file !! "dot_1x1_rgb565_be.raw"%string.
Proof.
  apply (main_touches_only_zlib Batch.ascii_only Batch.stored
           (Batch.found ["dot_1x1_rgb565_be.raw"%string]) (Batch.args9 false true)
           Samples.one_pixel_file "dot_1x1_rgb565_be.raw").
  reflexivity.
Defined.

(** X13. Without the overwrite flag, every file present before [main]
    of pack_assets.py is present with the same content after it. *)
Theorem main_keeps_existing_files (unicode_span : list ascii -> list Z * list ascii)
    (zlib_compress : list Z -> Z -> list Z)
    (discover : bool -> gmap string (list Z) -> list string)
    (args : PackAssets.Args) (s : PackAssets.World) :
  PackAssets.overwrite args = false ->
  PackAssets.fs s ⊆ PackAssets.fs (snd (PackAssets.main unicode_span zlib_compress discover args s)).
Proof. apply main_keeps. Qed.

Lemma main_keeps_existing_files_witness :
  PackAssets.fs Batch.short_file_packed
  ⊆ PackAssets.fs
      (snd (PackAssets.main Batch.ascii_only Batch.stored (Batch.found ["foo_4x4_rgb565_be.raw"%string])
              (Batch.args9 true false) Batch.short_file_packed)).
Proof.
  apply (main_keeps_existing_files Batch.ascii_only Batch.stored
           (Batch.found ["foo_4x4_rgb565_be.raw"%string]) (Batch.args9 true false)
           Batch.short_file_packed).
  reflexivity.
Defined.

(** X14. After [compress_one] has handled a file that passes the size
    check (or has it waived) at a level 0..9, its output exists, and a
    second call with the same arguments returns True again and leaves
    the files as the first call left them, with or without the overwrite
    flag. *)
Theorem second_call_changes_nothing (unicode_span : list ascii -> list Z * list ascii)
    (zlib_compress : list Z -> Z -> list Z)
    (path : string) (w h lvl : Z) (data : list Z) (force overwrite : bool)
    (s : PackAssets.World) :
  PackAssets.size_from_name unicode_span path = Some (w, h) ->
  PackAssets.fs s !! path = Some data ->
  Z.of_nat (length data) = w * h * 2 \/ force = true ->
  0 <= lvl <= 9 ->
  let first := PackAssets.compress_one unicode_span zlib_compress path lvl force overwrite s in
  let second := PackAssets.compress_one unicode_span zlib_compress path lvl force overwrite
                  (snd first) in
  fst first = PackAssets.Val true /\ fst second = PackAssets.Val true
  /\ PackAssets.fs (snd second) = PackAssets.fs (snd first)
  /\ is_Some (PackAssets.fs (snd first) !! (path +:+ ".zlib")%string).
Proof. apply compress_one_again. Qed.

Lemma second_call_changes_nothing_witness :
  let first := PackAssets.compress_one Batch.ascii_only Batch.stored "dot_1x1_rgb565_be.raw" 9 false true
                 Samples.one_pixel_file in
  let second := PackAssets.compress_one Batch.ascii_only Batch.stored "dot_1x1_rgb565_be.raw" 9 false true
                  (snd first) in
  fst first = PackAssets.Val true /\ fst second = PackAssets.Val true
  /\ PackAssets.fs (snd second) = PackAssets.fs (snd first)
  /\ is_Some (PackAssets.fs (snd first) !! "dot_1x1_rgb565_be.raw.zlib"%string).
Proof.
  apply (second_call_changes_nothing Batch.ascii_only Batch.stored "dot_1x1_rgb565_be.raw" 1 1 9
           [0xF8; 0x00] false true Samples.one_pixel_file).
  - reflexivity.
  - reflexivity.
  - left. reflexivity.
  - lia.
Defined.

(** X15. When a file whose name matches the pattern cannot be read, the
    exception of [read_bytes] is caught by the loop of [main]: the
    failure is printed, the count of successes and the files are
    unchanged, and the loop goes on. *)
Theorem unreadable_file_is_reported (unicode_span : list ascii -> list Z * list ascii)
    (zlib_compress : list Z -> Z -> list Z)
    (args : PackAssets.Args) (ok : nat) (f : string) (w h : Z) (s : PackAssets.World) :
  PackAssets.size_from_name unicode_span f = Some (w, h) ->
  PackAssets.fs s !! f = None ->
  PackAssets.loop_body unicode_span zlib_compress args ok f s
  = (PackAssets.Val ok,
     PackAssets.mkWorld (PackAssets.fs s)
       (PackAssets.log s
        ++ [PackAssets.ERead f;
            PackAssets.EPrint (PackAssets.MsgFail (PackAssets.path_name f))])).
Proof. apply loop_body_unreadable. Qed.

Lemma unreadable_file_is_reported_witness :
  PackAssets.loop_body Batch.ascii_only Batch.stored (Batch.args9 false false) 3 "gone_2x2_rgb565_be.raw"
    Batch.unnamed_file
  = (PackAssets.Val 3%nat,
     PackAssets.mkWorld (PackAssets.fs Batch.unnamed_file)
       [PackAssets.ERead "gone_2x2_rgb565_be.raw";
        PackAssets.EPrint (PackAssets.MsgFail "gone_2x2_rgb565_be.raw")]).
Proof.
  apply (unreadable_file_is_reported Batch.ascii_only Batch.stored (Batch.args9 false false) 3
           "gone_2x2_rgb565_be.raw" 2 2 Batch.unnamed_file).
  - reflexivity.
  - reflexivity.
Defined.

(** X16. A path ending in .zlib never matches the raw-file pattern:
    [compress_one] skips it by name, at any level and with any flags,
    without reading or writing, so the stage never compresses one of its
    own outputs. *)
Theorem outputs_are_not_inputs (unicode_span : list ascii -> list Z * list ascii)
    (zlib_compress : list Z -> Z -> list Z)
    (q : string) (lvl : Z) (force overwrite : bool) (s : PackAssets.World) :
  PackAssets.size_from_name unicode_span (q +:+ ".zlib") = None
  /\ PackAssets.compress_one unicode_span zlib_compress (q +:+ ".zlib") lvl force overwrite s
     = (PackAssets.Val false,
        PackAssets.mkWorld (PackAssets.fs s)
          (PackAssets.log s
           ++ [PackAssets.EPrint
                 (PackAssets.MsgSkipName (PackAssets.path_name (q +:+ ".zlib")))])).
Proof.
  split; [apply size_from_name_zlib|].
  apply compress_one_name_mismatch, size_from_name_zlib.
Qed.

Section RunColumns.
Import MakeSpans Layout.
Local Open Scope nat_scope.

(** The runs paint the opaque columns, each once, from left to right. *)
Lemma spans_columns (ts : list bool) :
  forall x start, open_ok start x ->
    columns_of (spans ts x start) = open_cols start x ++ opaque_cols ts x.
Proof.
  unfold columns_of.
  induction ts as [|t ts IH]; intros x start Hs.
  - destruct start; simpl; rewrite ?app_nil_r; reflexivity.
  - destruct t; cbn [spans opaque_cols].
    + rewrite flat_map_app, IH by exact I.
      destruct start; simpl; rewrite ?app_nil_r; reflexivity.
    + rewrite IH by (destruct start; simpl in *; lia).
      destruct start as [s|]; simpl in Hs; cbn [open_cols].
      * replace (S x - s) with (S (x - s)) by lia.
        rewrite seq_S. replace (s + (x - s)) with x by lia.
        rewrite <- !app_assoc. reflexivity.
      * replace (S x - x) with 1 by lia. reflexivity.
Qed.

Lemma opaque_cols_filter (f : nat -> bool) (n : nat) :
  forall x, opaque_cols (map f (seq x n)) x
            = List.filter (fun c => negb (f c)) (seq x n).
Proof.
  induction n as [|n IH]; intros x; simpl; [reflexivity|].
  rewrite IH. destruct (f x); reflexivity.
Qed.

Lemma row_columns (pixels : nat -> nat -> RGBA) (key_rgb : RGB) (w y : nat) :
  columns_of (spans (flags_from pixels key_rgb w y 0) 0 None)
  = List.filter (fun c => negb (is_transparent key_rgb (pixels c y))) (seq 0 w).
Proof.
  rewrite spans_columns by exact I. unfold flags_from. rewrite Nat.sub_0_r.
  apply opaque_cols_filter.
Qed.

End RunColumns.

(** X17. The runs of a row, taken in order and each from its start over
    its length, list the opaque columns of the row from left to right,
    each exactly once; the lengths of the runs add up to their number. *)
Theorem runs_enumerate_opaque_columns (pixels : nat -> nat -> RGBA) (key_rgb : RGB)
    (w y : nat) :
  exists runs,
    MakeSpans.row_runs_of pixels key_rgb w y = Ok runs
    /\ Layout.columns_of runs
       = List.filter (fun c => negb (MakeSpans.is_transparent key_rgb (pixels c y)))
                     (seq 0 w)
    /\ Layout.sum_len runs = length (Layout.columns_of runs).
Proof.
  eexists. split; [apply row_runs_of_spans|]. split; [apply row_columns|].
  generalize (Layout.spans (Layout.flags_from pixels key_rgb w y 0) 0 None).
  intros runs. unfold Layout.sum_len, Layout.columns_of.
  induction runs as [|r runs IH]; simpl; [reflexivity|].
  rewrite length_app, length_seq, IH. reflexivity.
Qed.

Section BatchOutputs.
Import PackAssets Batch.
Variable unicode_span : list ascii -> list Z * list ascii.
Variable zlib_compress : list Z -> Z -> list Z.
Variable discover : bool -> gmap string (list Z) -> list string.
Variable args : Args.

Local Abbreviation out f := (f +:+ ".zlib")%string.

Lemma append_zlib_inj (a b : string) : out a = out b -> a = b.
Proof.
  intros Heq. apply (f_equal list_ascii_of_string) in Heq.
  rewrite !list_ascii_of_string_app in Heq. apply app_inv_tail in Heq.
  apply (f_equal string_of_list_ascii) in Heq.
  rewrite !string_of_list_ascii_of_string in Heq. exact Heq.
Qed.

(** What a call that returned [True] found and did. *)
Lemma compress_one_true (path : string) (s s1 : World) :
  compress_one unicode_span zlib_compress path (level args) (force args) (overwrite args) s
  = (Val true, s1) ->
  exists w h data,
    size_from_name unicode_span path = Some (w, h)
    /\ fs s !! path = Some data
    /\ ((fs s1 = fs s /\ is_Some (fs s !! out path) /\ overwrite args = false)
        \/ fs s1 = <[out path := zlib_compress data (level args)]> (fs s)).
Proof.
  destruct s as [m lg]. unfold compress_one.
  destruct (size_from_name unicode_span path) as [[w h]|];
    cbv [read_bytes path_exists write_bytes print emit get_fs put_fs
         raise mbind M_bind mret M_ret fs log]; [|discriminate].
  destruct (m !! path) as [data|] eqn:Hdata; [|discriminate].
  destruct (negb (Z.of_nat (length data) =? w * h * 2) && negb (force args));
    [discriminate|].
  destruct (bool_decide (is_Some (m !! out path))) eqn:Hex;
    destruct (overwrite args); simpl;
    try (destruct (zlib_level_ok (level args)); [|discriminate]);
    intros Heq; injection Heq as <-; exists w, h, data;
    (split; [reflexivity|]); (split; [reflexivity|]); simpl.
  - right. reflexivity.
  - left. apply bool_decide_eq_true in Hex. auto.
  - right. reflexivity.
  - right. reflexivity.
Qed.

Lemma file_result_true (f : string) (s s1 : World) :
  file_result unicode_span zlib_compress args f s = (true, s1) ->
  compress_one unicode_span zlib_compress f (level args) (force args) (overwrite args) s
  = (Val true, s1).
Proof.
  unfold file_result.
  destruct (compress_one unicode_span zlib_compress f (level args) (force args) (overwrite args) s)
    as [[b | e | c] s']; intros Heq; try discriminate.
  injection Heq as -> ->. reflexivity.
Qed.

(** No file disappears during a batch. *)
Lemma batch_world_is_Some (files : list string) (p : string) :
  forall s, is_Some (fs s !! p) ->
            is_Some (fs (batch_world unicode_span zlib_compress args files s) !! p).
Proof.
  induction files as [|f files IH]; intros s Hp; simpl; [exact Hp|].
  apply IH. rewrite file_result_fs.
  destruct (compress_one_fs unicode_span zlib_compress f (level args) (force args) (overwrite args) s)
    as [-> | (data & _ & -> & _)]; [exact Hp|].
  destruct (decide (out f = p)) as [<- | Hne].
  - rewrite lookup_insert_eq. eexists. reflexivity.
  - rewrite lookup_insert_ne by exact Hne. exact Hp.
Qed.

Lemma batch_outputs_exist (files : list string) :
  forall s, every_file_succeeded unicode_span zlib_compress args files s = true ->
    forall f, In f files ->
      size_from_name unicode_span f <> None
      /\ is_Some (fs (batch_world unicode_span zlib_compress args files s) !! out f).
Proof.
  unfold every_file_succeeded.
  induction files as [|f0 files IH]; intros s Hall f Hin; [destruct Hin|].
  simpl in Hall |- *.
  destruct (file_result unicode_span zlib_compress args f0 s) as [b s1] eqn:Hres.
  simpl in Hall |- *. apply andb_true_iff in Hall as [Hb Hall]. subst b.
  destruct Hin as [<- | Hin]; [|apply (IH s1 Hall f Hin)].
  destruct (compress_one_true f0 s s1 (file_result_true f0 s s1 Hres))
    as (w & h & data & Hname & Hdata & Hfs).
  split; [rewrite Hname; discriminate|].
  apply batch_world_is_Some.
  destruct Hfs as [(-> & Hout & _) | ->]; [exact Hout|].
  rewrite lookup_insert_eq. eexists. reflexivity.
Qed.

(** Once written, an output and its input stay as they are. *)
Lemma batch_keeps_output (files : list string) (f : string) (w h : Z) (data : list Z) :
  size_from_name unicode_span f = Some (w, h) ->
  forall s,
    fs s !! f = Some data ->
    fs s !! out f = Some (zlib_compress data (level args)) ->
    fs (batch_world unicode_span zlib_compress args files s) !! f = Some data
    /\ fs (batch_world unicode_span zlib_compress args files s) !! out f
       = Some (zlib_compress data (level args)).
Proof.
  intros Hname. induction files as [|g files IH]; intros s Hf Hout; simpl; [auto|].
  apply IH; rewrite file_result_fs;
    destruct (compress_one_fs unicode_span zlib_compress g (level args) (force args) (overwrite args) s)
      as [-> | (dg & Hg & -> & _)]; try assumption.
  - rewrite lookup_insert_ne; [exact Hf|].
    intros Heq. rewrite <- Heq, size_from_name_zlib in Hname. discriminate.
  - destruct (decide (out g = out f)) as [Heq | Hne].
    + rewrite Heq, lookup_insert_eq. apply append_zlib_inj in Heq. subst g.
      congruence.
    + rewrite lookup_insert_ne by exact Hne. exact Hout.
Qed.

Lemma batch_outputs_fresh (files : list string) :
  overwrite args = true ->
  forall s, every_file_succeeded unicode_span zlib_compress args files s = true ->
    forall f, In f files ->
      exists data,
        fs s !! f = Some data
        /\ fs (batch_world unicode_span zlib_compress args files s) !! out f
           = Some (zlib_compress data (level args)).
Proof.
  intros Hover. unfold every_file_succeeded.
  induction files as [|f0 files IH]; intros s Hall f Hin; [destruct Hin|].
  simpl in Hall |- *.
  destruct (file_result unicode_span zlib_compress args f0 s) as [b s1] eqn:Hres.
  simpl in Hall |- *. apply andb_true_iff in Hall as [Hb Hall]. subst b.
  destruct (compress_one_true f0 s s1 (file_result_true f0 s s1 Hres))
    as (w & h & data & Hname & Hdata & Hfs).
  destruct Hfs as [(_ & _ & Hno) | Hfs]; [congruence|].
  destruct Hin as [<- | Hin].
  - exists data. split; [exact Hdata|].
    apply (batch_keeps_output files f0 w h data Hname s1).
    + rewrite Hfs, lookup_insert_ne; [exact Hdata|].
      intros Heq. rewrite <- Heq, size_from_name_zlib in Hname. discriminate.
    + rewrite Hfs. apply lookup_insert_eq.
  - destruct (IH s1 Hall f Hin) as (df & Hdf & Hout).
    exists df. split; [|exact Hout].
    rewrite Hfs in Hdf.
    destruct (decide (out f0 = f)) as [Heq | Hne];
      [|rewrite lookup_insert_ne in Hdf by exact Hne; exact Hdf].
    exfalso.
    destruct (batch_outputs_exist files s1 Hall f Hin) as [Hnf _].
    apply Hnf. rewrite <- Heq. apply size_from_name_zlib.
Qed.

(** What an exit status of 0 says about the run. *)
Lemma main_exit_0 (s s' : World) :
  main unicode_span zlib_compress discover args s = (Exit 0, s') ->
  let files := discover (recursive args) (fs s) in
  every_file_succeeded unicode_span zlib_compress args files (after_glob args s) = true
  /\ fs s' = fs (batch_world unicode_span zlib_compress args files (after_glob args s)).
Proof.
  intros Hmain files.
  destruct (Z_lt_dec (level args) 0) as [Hlo | Hlo];
    [rewrite main_bad_level in Hmain by (left; exact Hlo); discriminate|].
  destruct (Z_lt_dec 9 (level args)) as [Hhi | Hhi];
    [rewrite main_bad_level in Hmain by (right; exact Hhi); discriminate|].
  rewrite main_in_range in Hmain by lia. fold files in Hmain.
  destruct files as [|f0 rest] eqn:Hfiles; [discriminate|].
  cbv zeta in Hmain. unfold every_file_succeeded.
  rewrite <- count_true_all, batch_results_length.
  destruct (_ =? _)%nat; [|discriminate].
  injection Hmain as <-. split; reflexivity.
Qed.

End BatchOutputs.

(** X18. When [main] of pack_assets.py exits with status 0, every file
    it found has a name that matches the pattern and has its .zlib output
    in place. *)
Theorem exit_0_means_all_outputs_exist (unicode_span : list ascii -> list Z * list ascii)
    (zlib_compress : list Z -> Z -> list Z)
    (discover : bool -> gmap string (list Z) -> list string)
    (args : PackAssets.Args) (s s' : PackAssets.World) :
  PackAssets.main unicode_span zlib_compress discover args s = (PackAssets.Exit 0, s') ->
  forall f, In f (discover (PackAssets.recursive args) (PackAssets.fs s)) ->
    PackAssets.size_from_name unicode_span f <> None
    /\ is_Some (PackAssets.fs s' !! (f +:+ ".zlib")%string).
Proof.
  intros Hmain f Hin.
  destruct (main_exit_0 unicode_span zlib_compress discover args s s' Hmain) as [Hall ->].
  apply batch_outputs_exist; assumption.
Qed.

Lemma exit_0_means_all_outputs_exist_witness :
  PackAssets.size_from_name Batch.ascii_only "dot_1x1_rgb565_be.raw" <> None
  /\ is_Some (PackAssets.fs
                (snd (PackAssets.main Batch.ascii_only Batch.stored
                        (Batch.found ["dot_1x1_rgb565_be.raw"%string])
                        (Batch.args9 false false) Samples.one_pixel_file))
              !! "dot_1x1_rgb565_be.raw.zlib"%string).
Proof.
  apply (exit_0_means_all_outputs_exist Batch.ascii_only Batch.stored
           (Batch.found ["dot_1x1_rgb565_be.raw"%string]) (Batch.args9 false false)
           Samples.one_pixel_file _ (eq_refl : _ = (PackAssets.Exit 0, _))).
  left. reflexivity.
Defined.

(** X19. When [main] of pack_assets.py runs with the overwrite flag and
    exits with status 0, every file it found is unchanged and its .zlib
    output holds the compression of its content at the given level. *)
Theorem overwrite_run_compresses_every_input (unicode_span : list ascii -> list Z * list ascii)
    (zlib_compress : list Z -> Z -> list Z)
    (discover : bool -> gmap string (list Z) -> list string)
    (args : PackAssets.Args) (s s' : PackAssets.World) :
  PackAssets.overwrite args = true ->
  PackAssets.main unicode_span zlib_compress discover args s = (PackAssets.Exit 0, s') ->
  forall f, In f (discover (PackAssets.recursive args) (PackAssets.fs s)) ->
    exists data,
      PackAssets.fs s !! f = Some data
      /\ PackAssets.fs s' !! f = Some data
      /\ PackAssets.fs s' !! (f +:+ ".zlib")%string
         = Some (zlib_compress data (PackAssets.level args)).
Proof.
  intros Hover Hmain f Hin.
  destruct (main_exit_0 unicode_span zlib_compress discover args s s' Hmain) as [Hall Hfs].
  destruct (batch_outputs_fresh unicode_span zlib_compress args _ Hover _ Hall f Hin)
    as (data & Hdata & Hout).
  exists data. split; [exact Hdata|]. rewrite Hfs. split; [|exact Hout].
  destruct (batch_outputs_exist unicode_span zlib_compress args _ _ Hall f Hin) as [Hname _].
  rewrite batch_world_frame; [exact Hdata|].
  intros g _ ->. apply Hname, size_from_name_zlib.
Qed.

Lemma overwrite_run_compresses_every_input_witness :
  exists data,
    PackAssets.fs Batch.short_file_packed !! "foo_4x4_rgb565_be.raw"%string = Some data
    /\ PackAssets.fs
         (snd (PackAssets.main Batch.ascii_only Batch.stored (Batch.found ["foo_4x4_rgb565_be.raw"%string])
                 (Batch.args9 true true) Batch.short_file_packed))
       !! "foo_4x4_rgb565_be.raw"%string = Some data
    /\ PackAssets.fs
         (snd (PackAssets.main Batch.ascii_only Batch.stored (Batch.found ["foo_4x4_rgb565_be.raw"%string])
                 (Batch.args9 true true) Batch.short_file_packed))
       !! "foo_4x4_rgb565_be.raw.zlib"%string = Some (Batch.stored data 9).
Proof.
  apply (overwrite_run_compresses_every_input Batch.ascii_only Batch.stored
           (Batch.found ["foo_4x4_rgb565_be.raw"%string]) (Batch.args9 true true)
           Batch.short_file_packed _ eq_refl (eq_refl : _ = (PackAssets.Exit 0, _))).
  left. reflexivity.
Defined.
